(** * API server hunters (src/modules/hunting/apiserver.py)

    A shallow embedding of the two hunters of the module, the passive
    [AccessApiServerViaServiceAccountToken] and the active
    [AccessApiServerViaServiceAccountTokenActive], and of the vulnerability
    events they publish.

    The methods are Python methods on a mutable object that talk to the file
    system, to the network (the requests library) and to the event framework
    ([publish_event]).  They are embedded in a state-and-exception monad: the
    state holds the hunter object, the events published so far and the HTTP
    requests sent so far; an exception leaves the state as it was when it was
    raised, as in Python.  The file system and the network are an explicit
    [world] the methods are run against.

    Python 3 semantics are followed: the body of a requests response
    ([Response.content]) is a bytes object, the literal [''] is a str, and a
    bytes object never equals a str. *)

From Stdlib Require Import ZArith String Ascii List Bool Lia.
From Stdlib Require Import Strings.Byte.
From stdpp Require Import base option list gmap strings pretty.

Local Open Scope string_scope.

(** ** Python values *)

Definition bytes := list byte.

Fixpoint bytes_eqb (a b : bytes) : bool :=
  match a, b with
  | [], [] => true
  | x :: a', y :: b' => Byte.eqb x y && bytes_eqb a' b'
  | _, _ => false
  end.

(** The values the evidence fields and the probes' results range over: str,
    bytes and bool. *)
Inductive pyval :=
| VStr (s : string)
| VBytes (b : bytes)
| VBool (b : bool).

(** [==] of Python 3 on these values: values of different types are never
    equal (in particular bytes and str). *)
Definition py_eq (x y : pyval) : bool :=
  match x, y with
  | VStr a, VStr b => String.eqb a b
  | VBytes a, VBytes b => bytes_eqb a b
  | VBool a, VBool b => Bool.eqb a b
  | _, _ => false
  end.

(** [!=] *)
Definition py_ne (x y : pyval) : bool := negb (py_eq x y).

(** ** Exceptions

    The exception classes the module can meet.  [IOError] stands for the
    built-in class and its subclasses for a missing file or a denied
    permission; [ConnectionError] is requests.exceptions.ConnectionError (DNS
    failure, refused connection), which derives from [IOError] through
    RequestException; [ValueError] is what json.loads raises on a document it
    cannot decode; [KeyError] and [TypeError] come from subscripting and
    iterating decoded documents. *)
Inductive exn :=
| IOError
| ConnectionError
| ValueError
| KeyError (key : string)
| TypeError.

(** [except IOError] *)
Definition is_IOError (e : exn) : bool :=
  match e with
  | IOError | ConnectionError => true
  | _ => false
  end.

(** [except requests.exceptions.ConnectionError] *)
Definition is_ConnectionError (e : exn) : bool :=
  match e with
  | ConnectionError => true
  | _ => false
  end.

Inductive result (A : Type) :=
| Ok (a : A)
| Raise (e : exn).
Arguments Ok {A} a.
Arguments Raise {A} e.

Definition raises {A} (r : result A) : bool :=
  match r with
  | Ok _ => false
  | Raise _ => true
  end.

(** ** Vulnerability events *)

Inductive component := KubernetesCluster.

Inductive category := RemoteCodeExec | AccessRisk | InformationDisclosure.

(** One constructor per event class of the module; the argument is the
    evidence given to the class. *)
Inductive vulnerability :=
| ServerApiAccess (evidence : pyval)
| ServiceAccountTokenAccess (evidence : pyval)
| PodListUnderDefaultNamespace (evidence : pyval)
| PodListUnderAllNamespaces (evidence : pyval)
| ListAllNamespaces (evidence : pyval)
| CreateARole (evidence : pyval)
| CreateAClusterRole (evidence : pyval)
| PatchARole (evidence : pyval)
| PatchAClusterRole (evidence : pyval)
| DeleteARole (evidence : pyval)
| DeleteAClusterRole (evidence : pyval).

(** The fields [Vulnerability.__init__] is given by each class. *)
Definition vuln_component (v : vulnerability) : component := KubernetesCluster.

Definition vuln_name (v : vulnerability) : string :=
  match v with
  | ServerApiAccess _ => "Accessed to server API"
  | ServiceAccountTokenAccess _ => "Read access to pod's service account token"
  | PodListUnderDefaultNamespace _ => "Access to the pods list under default namespace"
  | PodListUnderAllNamespaces _ => "Access to the pods list under ALL namespaces"
  | ListAllNamespaces _ => "Access to the all namespaces list"
  | CreateARole _ => "Created a role"
  | CreateAClusterRole _ => "Created a cluster role"
  | PatchARole _ => "Patched a role"
  | PatchAClusterRole _ => "Patched a cluster role"
  | DeleteARole _ => "Deleted a role"
  | DeleteAClusterRole _ => "Deleted a cluster role"
  end.

Definition vuln_category (v : vulnerability) : category :=
  match v with
  | ServerApiAccess _ => RemoteCodeExec
  | ServiceAccountTokenAccess _ => AccessRisk
  | _ => InformationDisclosure
  end.

Definition vuln_evidence (v : vulnerability) : pyval :=
  match v with
  | ServerApiAccess e | ServiceAccountTokenAccess e
  | PodListUnderDefaultNamespace e | PodListUnderAllNamespaces e
  | ListAllNamespaces e | CreateARole e | CreateAClusterRole e
  | PatchARole e | PatchAClusterRole e | DeleteARole e
  | DeleteAClusterRole e => e
  end.

(** The events whose probe needs the service account token. *)
Definition token_dependent (v : vulnerability) : bool :=
  match v with
  | ServerApiAccess _ | PodListUnderAllNamespaces _
  | PodListUnderDefaultNamespace _ => true
  | _ => false
  end.

(** ** The outside world *)

(** The event a hunter is created on. *)
Record OpenPortEvent := { host : string; port : Z }.

Inductive http_method := GET | DELETE | PATCH.

(** A call of requests.get, requests.delete or requests.patch: the URL, the
    [headers] dictionary, the [verify] flag and, when given, [data]. *)
Record request := {
  method : http_method;
  url : string;
  headers : list (string * string);
  verify : bool;
  data : option (list (string * string))
}.

(** The two attributes of a requests response the module reads. *)
Record response := { status_code : Z; content : bytes }.

(** What a run meets: for a path, what opening and reading the file gives
    (its text, or an exception); for a request, what the requests call
    gives (a response, or an exception). *)
Record world := {
  read_file : string -> result string;
  send : request -> result response
}.

(** ** The monad of the methods *)

(** The hunter object [self], the events handed to [publish_event] and the
    requests sent, both oldest first. *)
Record mem (H : Type) := Mem {
  self : H;
  published : list vulnerability;
  sent : list request
}.
Arguments Mem {H} self published sent.
Arguments self {H} m.
Arguments published {H} m.
Arguments sent {H} m.

Definition M (H A : Type) : Type := mem H -> result A * mem H.

Definition ret {H A} (a : A) : M H A := fun m => (Ok a, m).

Definition bind {H A B} (c : M H A) (k : A -> M H B) : M H B :=
  fun m =>
    match c m with
    | (Ok a, m') => k a m'
    | (Raise e, m') => (Raise e, m')
    end.

Notation "'let*' x ':=' c 'in' k" := (bind c (fun x => k))
  (at level 10, x name, c at level 100, k at level 200).

(** A pure computation that may raise, inside a method. *)
Definition lift {H A} (r : result A) : M H A := fun m => (r, m).

(** [try: body except <class>: handler] *)
Definition try_except {H A} (body : M H A) (catches : exn -> bool)
    (handler : M H A) : M H A :=
  fun m =>
    match body m with
    | (Raise e, m') => if catches e then handler m' else (Raise e, m')
    | r => r
    end.

(** Reading [self] and assigning to its attributes. *)
Definition get_self {H} : M H H := fun m => (Ok (self m), m).

Definition set_self {H} (f : H -> H) : M H unit :=
  fun m => (Ok tt, Mem (f (self m)) (published m) (sent m)).

(** Modelled from the spec: [publish_event] of the hunter base classes
    (core.types, not among the sources at hand) hands one event to the
    reporting framework and does nothing else; the events handed over are
    recorded in order. *)
Definition publish_event {H} (v : vulnerability) : M H unit :=
  fun m => (Ok tt, Mem (self m) (published m ++ [v]) (sent m)).

(** [for x in l: body x] *)
Fixpoint for_each {H A} (l : list A) (body : A -> M H unit) : M H unit :=
  match l with
  | [] => ret tt
  | x :: l' => let* _ := body x in for_each l' body
  end.

(** [res.status_code == 200 and res.content != ''], the verdict every probe
    computes from its response. *)
Definition verdict (res : response) : bool :=
  (status_code res =? 200)%Z && py_ne (VBytes (content res)) (VStr "").

Section Effects.
Context {H : Type} (w : world).

(** [with open(path, 'r') as f: data = f.read()] *)
Definition open_read (path : string) : M H string :=
  fun m => (read_file w path, m).

(** A call of the requests library; the request goes out whether or not
    an answer comes back. *)
Definition requests_call (req : request) : M H response :=
  fun m => (send w req, Mem (self m) (published m) (sent m ++ [req])).
End Effects.

(** ['Authorization': 'Bearer ' + token] *)
Definition bearer (token : string) : list (string * string) :=
  [("Authorization", "Bearer " ++ token)].

(** ["https://{host}:{port}" + path] with the host and port of the event. *)
Definition api_url (ev : OpenPortEvent) (path : string) : string :=
  "https://" ++ host ev ++ ":" ++ pretty (port ev) ++ path.

Definition token_path : string :=
  "/var/run/secrets/kubernetes.io/serviceaccount/token".

(** The predicate both hunters subscribe to [OpenPortEvent] with:
    [lambda x: x.port == 443 or x.port == 6443]. *)
Definition predicate (x : OpenPortEvent) : bool :=
  (port x =? 443)%Z || (port x =? 6443)%Z.

(** ** The passive hunter: AccessApiServerViaServiceAccountToken *)

Module Passive.

Record hunter := {
  event : OpenPortEvent;
  api_server_evidence : pyval;
  service_account_token_evidence : string;
  pod_list_under_default_namespace_evidence : pyval;
  pod_list_under_all_namespaces_evidence : pyval
}.

Definition __init__ (ev : OpenPortEvent) : hunter :=
  {| event := ev;
     api_server_evidence := VStr "";
     service_account_token_evidence := "";
     pod_list_under_default_namespace_evidence := VStr "";
     pod_list_under_all_namespaces_evidence := VStr "" |}.

(** Attribute assignments. *)
Definition set_api_server_evidence (v : pyval) (s : hunter) : hunter :=
  {| event := event s;
     api_server_evidence := v;
     service_account_token_evidence := service_account_token_evidence s;
     pod_list_under_default_namespace_evidence :=
       pod_list_under_default_namespace_evidence s;
     pod_list_under_all_namespaces_evidence :=
       pod_list_under_all_namespaces_evidence s |}.

Definition set_service_account_token_evidence (t : string) (s : hunter)
  : hunter :=
  {| event := event s;
     api_server_evidence := api_server_evidence s;
     service_account_token_evidence := t;
     pod_list_under_default_namespace_evidence :=
       pod_list_under_default_namespace_evidence s;
     pod_list_under_all_namespaces_evidence :=
       pod_list_under_all_namespaces_evidence s |}.

Definition set_pod_list_under_default_namespace_evidence (v : pyval)
    (s : hunter) : hunter :=
  {| event := event s;
     api_server_evidence := api_server_evidence s;
     service_account_token_evidence := service_account_token_evidence s;
     pod_list_under_default_namespace_evidence := v;
     pod_list_under_all_namespaces_evidence :=
       pod_list_under_all_namespaces_evidence s |}.

Definition set_pod_list_under_all_namespaces_evidence (v : pyval)
    (s : hunter) : hunter :=
  {| event := event s;
     api_server_evidence := api_server_evidence s;
     service_account_token_evidence := service_account_token_evidence s;
     pod_list_under_default_namespace_evidence :=
       pod_list_under_default_namespace_evidence s;
     pod_list_under_all_namespaces_evidence := v |}.

(** The requests of the three probes, for a hunter object [s]. *)
Definition api_request (s : hunter) : request :=
  {| method := GET;
     url := api_url (event s) "/api";
     headers := bearer (service_account_token_evidence s);
     verify := false;
     data := None |}.

Definition default_pods_request (s : hunter) : request :=
  {| method := GET;
     url := api_url (event s) ("/api/v1/namespaces/" ++ "default" ++ "/pods");
     headers := bearer (service_account_token_evidence s);
     verify := false;
     data := None |}.

Definition all_pods_request (s : hunter) : request :=
  {| method := GET;
     url := api_url (event s) "/api/v1/pods";
     headers := bearer (service_account_token_evidence s);
     verify := false;
     data := None |}.

Section Methods.
Context (w : world).

Definition access_api_server : M hunter bool :=
  try_except
    (let* s := get_self in
     let* res := requests_call w (api_request s) in
     let* _ := set_self (set_api_server_evidence (VBytes (content res))) in
     ret (verdict res))
    is_ConnectionError
    (ret false).

Definition get_service_account_token : M hunter bool :=
  try_except
    (let* data := open_read w token_path in
     let* _ := set_self (set_service_account_token_evidence data) in
     ret true)
    is_IOError
    (ret false).

Definition get_pods_list_under_default_namespace : M hunter bool :=
  try_except
    (let* s := get_self in
     let* res := requests_call w (default_pods_request s) in
     let* _ := set_self (set_pod_list_under_default_namespace_evidence
                           (VBytes (content res))) in
     ret (verdict res))
    is_ConnectionError
    (ret false).

Definition get_pods_list_under_all_namespace : M hunter bool :=
  try_except
    (let* s := get_self in
     let* res := requests_call w (all_pods_request s) in
     let* _ := set_self (set_pod_list_under_all_namespaces_evidence
                           (VBytes (content res))) in
     ret (verdict res))
    is_ConnectionError
    (ret false).

Definition execute : M hunter unit :=
  let* got_token := get_service_account_token in
  if got_token then
    let* s := get_self in
    let* _ := publish_event
                (ServiceAccountTokenAccess
                   (VStr (service_account_token_evidence s))) in
    let* ok_api := access_api_server in
    let* _ := (if ok_api then
                 let* s := get_self in
                 publish_event (ServerApiAccess (api_server_evidence s))
               else ret tt) in
    let* ok_all := get_pods_list_under_all_namespace in
    let* _ := (if ok_all then
                 let* s := get_self in
                 publish_event
                   (PodListUnderAllNamespaces
                      (pod_list_under_all_namespaces_evidence s))
               else ret tt) in
    let* ok_default := get_pods_list_under_default_namespace in
    if ok_default then
      let* s := get_self in
      publish_event
        (PodListUnderDefaultNamespace
           (pod_list_under_default_namespace_evidence s))
    else ret tt
  else ret tt.
End Methods.

(** Modelled from the spec: the event framework (core.events, not among the
    sources at hand) creates the hunter on the matching event and calls
    [execute]; nothing has been published or sent before. *)
Definition start (ev : OpenPortEvent) : mem hunter :=
  Mem (__init__ ev) [] [].

Definition run (w : world) (ev : OpenPortEvent) : result unit * mem hunter :=
  execute w (start ev).

End Passive.

(** ** Decoded JSON documents

    What json.loads returns: None, bool, int, str, list and dict objects.  A
    dict is given by its members in document order; on a repeated name the
    last member wins, as in the decoder.  Numbers are integers. *)
#[warnings="-register-all"]
Inductive json :=
| JNull
| JBool (b : bool)
| JInt (n : Z)
| JStr (s : string)
| JList (l : list json)
| JDict (members : list (string * json)).

Fixpoint dict_get (members : list (string * json)) (k : string)
  : option json :=
  match members with
  | [] => None
  | (k', v) :: rest =>
      match dict_get rest k with
      | Some x => Some x
      | None => if String.eqb k' k then Some v else None
      end
  end.

(** [v[k]] for a str [k]: only a dict can be subscripted by a str, and the
    key has to be there. *)
Definition getitem (v : json) (k : string) : result json :=
  match v with
  | JDict members =>
      match dict_get members k with
      | Some x => Ok x
      | None => Raise (KeyError k)
      end
  | _ => Raise TypeError
  end.

(** The keys of a dict, each once, in the order of their first member. *)
Fixpoint dict_keys (members : list (string * json)) (seen : list string)
  : list string :=
  match members with
  | [] => []
  | (k, _) :: rest =>
      if existsb (String.eqb k) seen then dict_keys rest seen
      else k :: dict_keys rest (k :: seen)
  end.

(** What [for item in v] goes through: the elements of a list, the keys of a
    dict, the characters of a str (a character is one element of the string
    here); the other objects are not iterable. *)
Definition iter (v : json) : result (list json) :=
  match v with
  | JList l => Ok l
  | JDict members => Ok (JStr <$> dict_keys members [])
  | JStr s => Ok ((fun c => JStr (String c "")) <$> list_ascii_of_string s)
  | _ => Raise TypeError
  end.

(** The keys of the dict [namespaces_and_their_pod_names]: the hashable
    decoded objects, up to the equality of Python, for which [True] is [1]
    and [False] is [0]. *)
Inductive pykey :=
| KNone
| KInt (n : Z)
| KStr (s : string).

#[global] Instance pykey_eq_dec : EqDecision pykey.
Proof. solve_decision. Defined.

Definition pykey_encode (k : pykey) : option (Z + string) :=
  match k with
  | KNone => None
  | KInt n => Some (inl n)
  | KStr s => Some (inr s)
  end.

Definition pykey_decode (x : option (Z + string)) : pykey :=
  match x with
  | None => KNone
  | Some (inl n) => KInt n
  | Some (inr s) => KStr s
  end.

#[global] Instance pykey_countable : Countable pykey.
Proof.
  apply (inj_countable' pykey_encode pykey_decode).
  intros [| |]; reflexivity.
Defined.

(** Using a decoded object as a dict key: lists and dicts are unhashable. *)
Definition to_key (v : json) : result pykey :=
  match v with
  | JNull => Ok KNone
  | JBool b => Ok (KInt (if b then 1 else 0))
  | JInt n => Ok (KInt n)
  | JStr s => Ok (KStr s)
  | JList _ | JDict _ => Raise TypeError
  end.

(** The key and the value of the assignment
    [d[item["metadata"]["namespace"]] = item["metadata"]["name"]]: Python
    evaluates the right-hand side first, then the key, then hashes it. *)
Definition pod_entry (item : json) : result (pykey * json) :=
  match getitem item "metadata" with
  | Raise e => Raise e
  | Ok md =>
      match getitem md "name" with
      | Raise e => Raise e
      | Ok name =>
          match getitem md "namespace" with
          | Raise e => Raise e
          | Ok ns =>
              match to_key ns with
              | Raise e => Raise e
              | Ok k => Ok (k, name)
              end
          end
      end
  end.

(** ** The active hunter: AccessApiServerViaServiceAccountTokenActive *)

Module Active.

Record hunter := {
  event : OpenPortEvent;
  api_server_evidence : pyval;
  service_account_token_evidence : string;
  all_namespaces_evidence : pyval;
  namespace_roles_evidence : pyval;
  all_roles_evidence : pyval;
  cluster_roles_evidence : pyval;
  namespaces_and_their_pod_names : gmap pykey json
}.

Definition __init__ (ev : OpenPortEvent) : hunter :=
  {| event := ev;
     api_server_evidence := VStr "";
     service_account_token_evidence := "";
     all_namespaces_evidence := VStr "";
     namespace_roles_evidence := VStr "";
     all_roles_evidence := VStr "";
     cluster_roles_evidence := VStr "";
     namespaces_and_their_pod_names := ∅ |}.

(** Attribute assignments (the three the methods make). *)
Definition set_service_account_token_evidence (t : string) (s : hunter)
  : hunter :=
  {| event := event s;
     api_server_evidence := api_server_evidence s;
     service_account_token_evidence := t;
     all_namespaces_evidence := all_namespaces_evidence s;
     namespace_roles_evidence := namespace_roles_evidence s;
     all_roles_evidence := all_roles_evidence s;
     cluster_roles_evidence := cluster_roles_evidence s;
     namespaces_and_their_pod_names := namespaces_and_their_pod_names s |}.

Definition set_namespace_roles_evidence (v : pyval) (s : hunter) : hunter :=
  {| event := event s;
     api_server_evidence := api_server_evidence s;
     service_account_token_evidence := service_account_token_evidence s;
     all_namespaces_evidence := all_namespaces_evidence s;
     namespace_roles_evidence := v;
     all_roles_evidence := all_roles_evidence s;
     cluster_roles_evidence := cluster_roles_evidence s;
     namespaces_and_their_pod_names := namespaces_and_their_pod_names s |}.

(** [self.namespaces_and_their_pod_names[k] = v] *)
Definition set_pod_name (k : pykey) (v : json) (s : hunter) : hunter :=
  {| event := event s;
     api_server_evidence := api_server_evidence s;
     service_account_token_evidence := service_account_token_evidence s;
     all_namespaces_evidence := all_namespaces_evidence s;
     namespace_roles_evidence := namespace_roles_evidence s;
     all_roles_evidence := all_roles_evidence s;
     cluster_roles_evidence := cluster_roles_evidence s;
     namespaces_and_their_pod_names :=
       <[k := v]> (namespaces_and_their_pod_names s) |}.

(** A request of the hunter [s] to a path of the API server. *)
Definition api_request (meth : http_method) (path : string)
    (payload : option (list (string * string))) (s : hunter) : request :=
  {| method := meth;
     url := api_url (event s) path;
     headers := bearer (service_account_token_evidence s);
     verify := false;
     data := payload |}.

Definition default_pods_request : hunter -> request :=
  api_request GET ("/api/v1/namespaces/" ++ "default" ++ "/pods") None.

Definition all_pods_request : hunter -> request :=
  api_request GET "/api/v1/pods" None.

Definition pod_path (pod_namespace pod_name : string) : string :=
  "/api/v1/namespaces/" ++ pod_namespace ++ "/pods/" ++ pod_name.

Definition rbac : string := "/apis/rbac.authorization.k8s.io/v1".

(** The body of the loop over the items of a pod list. *)
Definition record_pod (item : json) : M hunter unit :=
  let* entry := lift (pod_entry item) in
  set_self (set_pod_name (fst entry) (snd entry)).

(** [res.content if res.status_code == 200 and res.content != '' else False] *)
Definition content_or_False (res : response) : pyval :=
  if verdict res then VBytes (content res) else VBool false.

Section Methods.
Context (json_loads : bytes -> result json) (w : world).

Definition get_service_account_token : M hunter bool :=
  try_except
    (let* data := open_read w token_path in
     let* _ := set_self (set_service_account_token_evidence data) in
     ret true)
    is_IOError
    (ret false).

Definition get_pods_list_under_default_namespace : M hunter bool :=
  try_except
    (let* s := get_self in
     let* res := requests_call w (default_pods_request s) in
     let* parsed_response_content := lift (json_loads (content res)) in
     let* items := lift (getitem parsed_response_content "items") in
     let* items := lift (iter items) in
     let* _ := for_each items record_pod in
     ret (verdict res))
    is_ConnectionError
    (ret false).

Definition get_pods_list_under_all_namespace : M hunter bool :=
  try_except
    (let* s := get_self in
     let* res := requests_call w (all_pods_request s) in
     let* parsed_response_content := lift (json_loads (content res)) in
     let* items := lift (getitem parsed_response_content "items") in
     let* items := lift (iter items) in
     let* _ := for_each items record_pod in
     ret (verdict res))
    is_ConnectionError
    (ret false).

Definition create_a_pod : M hunter unit := ret tt.

Definition delete_a_pod (pod_namespace pod_name : string)
  : M hunter bool :=
  try_except
    (let* s := get_self in
     let* res := requests_call w
                   (api_request DELETE (pod_path pod_namespace pod_name)
                      None s) in
     ret (verdict res))
    is_ConnectionError
    (ret false).

Definition patch_a_pod (pod_namespace pod_name : string)
  : M hunter bool :=
  try_except
    (let patch_data := [] in
     let* s := get_self in
     let* res := requests_call w
                   (api_request PATCH (pod_path pod_namespace pod_name)
                      (Some patch_data) s) in
     ret (verdict res))
    is_ConnectionError
    (ret false).

Definition get_all_namespaces : M hunter bool :=
  try_except
    (let* s := get_self in
     let* res := requests_call w
                   (api_request GET "/api/v1/namespaces" None s) in
     let* parsed_response_content := lift (json_loads (content res)) in
     ret (verdict res))
    is_ConnectionError
    (ret false).

Definition create_namespace : M hunter unit := ret tt.

Definition get_roles_for_namespace (namespace : string)
  : M hunter pyval :=
  try_except
    (let* s := get_self in
     let* res := requests_call w
                   (api_request GET
                      (rbac ++ "/namespaces/" ++ namespace ++ "/roles")
                      None s) in
     let* _ := set_self (set_namespace_roles_evidence
                           (VBytes (content res))) in
     ret (content_or_False res))
    is_ConnectionError
    (ret (VBool false)).

Definition get_cluster_roles : M hunter pyval :=
  try_except
    (let* s := get_self in
     let* res := requests_call w
                   (api_request GET (rbac ++ "/clusterroles") None s) in
     let* _ := set_self (set_namespace_roles_evidence
                           (VBytes (content res))) in
     ret (content_or_False res))
    is_ConnectionError
    (ret (VBool false)).

Definition get_all_roles : M hunter pyval :=
  try_except
    (let* s := get_self in
     let* res := requests_call w
                   (api_request GET (rbac ++ "/roles") None s) in
     let* _ := set_self (set_namespace_roles_evidence
                           (VBytes (content res))) in
     ret (content_or_False res))
    is_ConnectionError
    (ret (VBool false)).

Definition create_role : M hunter unit := ret tt.
Definition create_cluster_role : M hunter unit := ret tt.
Definition delete_a_role : M hunter unit := ret tt.
Definition delete_a_cluster_role : M hunter unit := ret tt.
Definition patch_a_role : M hunter unit := ret tt.
Definition patch_a_cluster_role : M hunter unit := ret tt.

Definition execute : M hunter unit :=
  let* got_token := get_service_account_token in
  if got_token then
    let* _ := get_pods_list_under_all_namespace in
    let* _ := get_pods_list_under_default_namespace in
    ret tt
  else ret tt.
End Methods.

(** Modelled from the spec: as for the passive hunter, the event framework
    creates the hunter on the matching event and calls [execute]. *)
Definition start (ev : OpenPortEvent) : mem hunter :=
  Mem (__init__ ev) [] [].

Definition run (json_loads : bytes -> result json) (w : world)
    (ev : OpenPortEvent) : result unit * mem hunter :=
  execute json_loads w (start ev).

End Active.

(** ** Outcomes of a probe, as the specifications below name them *)

(** The transport fails only the way the handlers of the probes expect: an
    exception of a requests call is a [ConnectionError]. *)
Definition transport_failure_only (w : world) : Prop :=
  ∀ req e, send w req = Raise e → is_ConnectionError e = true.

(** The event a probe's answer leads to, if any: the probe succeeds on a
    response with a true verdict, and its evidence is the body. *)
Definition finding_of (answer : result response)
    (mk : pyval → vulnerability) : list vulnerability :=
  match answer with
  | Ok res => if verdict res then [mk (VBytes (content res))] else []
  | Raise _ => []
  end.

(** Requests that change the cluster. *)
Definition mutating (req : request) : bool :=
  match method req with
  | GET => false
  | DELETE | PATCH => true
  end.

(** The three API probes of the passive hunter: the request of the probe,
    the evidence field it assigns, the method, and the event [execute]
    publishes when the method returns True. *)
Record probe_step := {
  step_request : Passive.hunter → request;
  step_store : pyval → Passive.hunter → Passive.hunter;
  step_method : M Passive.hunter bool;
  step_finding : pyval → vulnerability
}.

Definition api_step (w : world) : probe_step :=
  {| step_request := Passive.api_request;
     step_store := Passive.set_api_server_evidence;
     step_method := Passive.access_api_server w;
     step_finding := ServerApiAccess |}.

Definition all_pods_step (w : world) : probe_step :=
  {| step_request := Passive.all_pods_request;
     step_store := Passive.set_pod_list_under_all_namespaces_evidence;
     step_method := Passive.get_pods_list_under_all_namespace w;
     step_finding := PodListUnderAllNamespaces |}.

Definition default_pods_step (w : world) : probe_step :=
  {| step_request := Passive.default_pods_request;
     step_store := Passive.set_pod_list_under_default_namespace_evidence;
     step_method := Passive.get_pods_list_under_default_namespace w;
     step_finding := PodListUnderDefaultNamespace |}.

Definition passive_steps (w : world) : list probe_step :=
  [api_step w; all_pods_step w; default_pods_step w].

(** The two pod-list probes of the active hunter, each with its request. *)
Definition active_pod_lists (json_loads : bytes → result json) (w : world)
  : list ((Active.hunter → request) * M Active.hunter bool) :=
  [ (Active.all_pods_request,
     Active.get_pods_list_under_all_namespace json_loads w);
    (Active.default_pods_request,
     Active.get_pods_list_under_default_namespace json_loads w) ].

(** What a passive probe does to the memory, by the answer to its request:
    the body of a response is stored whatever its status, a connection error
    gives False, any other exception goes through. *)
Definition probe_effect (w : world) (req : request)
    (store : pyval → Passive.hunter → Passive.hunter)
    (m : mem Passive.hunter) : result bool * mem Passive.hunter :=
  match send w req with
  | Ok res =>
      (Ok (verdict res),
       Mem (store (VBytes (content res)) (self m)) (published m)
         (sent m ++ [req]))
  | Raise e =>
      (if is_ConnectionError e then Ok false else Raise e,
       Mem (self m) (published m) (sent m ++ [req]))
  end.

(** The evidence field of a probe after its request was answered. *)
Definition store_if (answer : result response)
    (store : pyval → Passive.hunter → Passive.hunter) (s : Passive.hunter)
  : Passive.hunter :=
  match answer with
  | Ok res => store (VBytes (content res)) s
  | Raise _ => s
  end.

(** The dict after the assignments [d[k] = v] for the entries in order. *)
Definition insert_entries (d : gmap pykey json)
    (entries : list (pykey * json)) : gmap pykey json :=
  foldl (fun acc e => <[e.1 := e.2]> acc) d entries.

(** What [except requests.exceptions.ConnectionError: return False] makes
    of an exception raised in the body of a probe. *)
Definition handled {H} (e : exn) (m : mem H) : result bool * mem H :=
  (if is_ConnectionError e then Ok false else Raise e, m).

(** What a pod-list probe of the active hunter does to the memory: the body
    is decoded and gone through before the status is looked at, and an
    exception on the way leaves the assignments made so far. *)
Definition pod_list_effect (json_loads : bytes → result json) (w : world)
    (req : request) (m : mem Active.hunter)
  : result bool * mem Active.hunter :=
  let m1 := Mem (self m) (published m) (sent m ++ [req]) in
  match send w req with
  | Raise e => handled e m1
  | Ok res =>
      match json_loads (content res) with
      | Raise e => handled e m1
      | Ok doc =>
          match getitem doc "items" with
          | Raise e => handled e m1
          | Ok its =>
              match iter its with
              | Raise e => handled e m1
              | Ok items =>
                  match for_each items Active.record_pod m1 with
                  | (Ok _, m2) => (Ok (verdict res), m2)
                  | (Raise e, m2) => handled e m2
                  end
              end
          end
      end
  end.

(** No event published, and no request sent but GET requests. *)
Definition quiet_gets (pub : list vulnerability) (snt : list request) : Prop :=
  pub = [] ∧ Forall (λ req, mutating req = false) snt.

(** The entries of the items of a pod list that have the shape of a pod. *)
Definition entries_of (items : list json) : list (pykey * json) :=
  omap (fun item => match pod_entry item with
                    | Ok entry => Some entry
                    | Raise _ => None
                    end) items.

(** A computation keeps a property of the memory, whether it returns or
    raises. *)
Definition preserves {H A} (P : mem H → Prop) (c : M H A) : Prop :=
  ∀ m, P m → P (snd (c m)).

(** The hunter object of a passive run once the token [tok] is read. *)
Definition passive_with_token (ev : OpenPortEvent) (tok : string)
  : Passive.hunter :=
  Passive.set_service_account_token_evidence tok (Passive.__init__ ev).

(** The same for the active hunter. *)
Definition active_with_token (ev : OpenPortEvent) (tok : string)
  : Active.hunter :=
  Active.set_service_account_token_evidence tok (Active.__init__ ev).

(** ** Concrete worlds for the examples *)

Definition example_event : OpenPortEvent :=
  {| host := "10.96.0.1"; port := 443 |}.

(** A pod whose token file holds [tok], and a pod without one. *)
Definition token_mounted (tok : string) (path : string) : result string :=
  if String.eqb path token_path then Ok tok else Raise IOError.

Definition token_missing (path : string) : result string := Raise IOError.

(** JSON text: a name or a string in double quotes. *)
Definition quoted (s : string) : string :=
  String "034"%char (s ++ String "034"%char "").

Definition pod_text (namespace name : string) : string :=
  "{" ++ quoted "metadata" ++ ": {" ++ quoted "namespace" ++ ": "
      ++ quoted namespace ++ ", " ++ quoted "name" ++ ": " ++ quoted name
      ++ "}}".

(** A pod list with two pods of the namespace kube-system before one of the
    namespace default, and what it decodes to. *)
Definition pods_text : string :=
  "{" ++ quoted "items" ++ ": [" ++ pod_text "kube-system" "dns-1" ++ ", "
      ++ pod_text "kube-system" "dns-2" ++ ", " ++ pod_text "default" "web"
      ++ "]}".

Definition pod_doc (namespace name : string) : json :=
  JDict [("metadata", JDict [("namespace", JStr namespace);
                             ("name", JStr name)])].

Definition pods_doc : json :=
  JDict [("items", JList [pod_doc "kube-system" "dns-1";
                          pod_doc "kube-system" "dns-2";
                          pod_doc "default" "web"])].

(** The Status object an API server answers a forbidden request with. *)
Definition status_text : string :=
  "{" ++ quoted "kind" ++ ": " ++ quoted "Status" ++ ", " ++ quoted "code"
      ++ ": 403}".

Definition status_doc : json :=
  JDict [("kind", JStr "Status"); ("code", JInt 403)].

(** json.loads on the two documents above, the only ones the examples
    decode. *)
Definition loads_examples (b : bytes) : result json :=
  let text := string_of_list_byte b in
  if String.eqb text pods_text then Ok pods_doc
  else if String.eqb text status_text then Ok status_doc
  else Raise ValueError.

Definition respond (code : Z) (body : string) : result response :=
  Ok {| status_code := code; content := list_byte_of_string body |}.

(** An API server that answers GET /api with status 200 and an empty body
    and the pod list of the default namespace with status 403, and that
    drops the connection on the pod list of all namespaces. *)
Definition send_mixed (req : request) : result response :=
  if String.eqb (url req) "https://10.96.0.1:443/api" then respond 200 ""
  else if String.eqb (url req) "https://10.96.0.1:443/api/v1/pods"
  then Raise ConnectionError
  else respond 403 status_text.

Definition mixed_world : world :=
  {| read_file := token_mounted "tok"; send := send_mixed |}.

(** An API server that lets the token list the pods, and one that forbids
    everything. *)
Definition open_world : world :=
  {| read_file := token_mounted "tok";
     send := fun _ => respond 200 pods_text |}.

Definition forbidding_world : world :=
  {| read_file := token_mounted "tok";
     send := fun _ => respond 403 status_text |}.

(** An API server that lets the token list the roles. *)
Definition roles_text : string :=
  "{" ++ quoted "kind" ++ ": " ++ quoted "RoleList" ++ ", " ++ quoted "items"
      ++ ": []}".

Definition rbac_world : world :=
  {| read_file := token_mounted "tok";
     send := fun _ => respond 200 roles_text |}.

Definition tokenless_world : world :=
  {| read_file := token_missing; send := fun _ => Raise ConnectionError |}.


(** ** Further specifications *)

(** The event of the same class with another evidence. *)
Definition with_evidence (v : vulnerability) (e : pyval) : vulnerability :=
  match v with
  | ServerApiAccess _ => ServerApiAccess e
  | ServiceAccountTokenAccess _ => ServiceAccountTokenAccess e
  | PodListUnderDefaultNamespace _ => PodListUnderDefaultNamespace e
  | PodListUnderAllNamespaces _ => PodListUnderAllNamespaces e
  | ListAllNamespaces _ => ListAllNamespaces e
  | CreateARole _ => CreateARole e
  | CreateAClusterRole _ => CreateAClusterRole e
  | PatchARole _ => PatchARole e
  | PatchAClusterRole _ => PatchAClusterRole e
  | DeleteARole _ => DeleteARole e
  | DeleteAClusterRole _ => DeleteAClusterRole e
  end.

(** The three role probes of the active hunter, each with its request. *)
Definition role_probes (w : world) (namespace : string)
  : list ((Active.hunter → request) * M Active.hunter pyval) :=
  [ (Active.api_request GET
       (Active.rbac ++ "/namespaces/" ++ namespace ++ "/roles") None,
     Active.get_roles_for_namespace w namespace);
    (Active.api_request GET (Active.rbac ++ "/clusterroles") None,
     Active.get_cluster_roles w);
    (Active.api_request GET (Active.rbac ++ "/roles") None,
     Active.get_all_roles w) ].

(** A request as every probe of a hunter on [ev] with the token [tok] makes
    it: to the API server of the event over https, with the token as bearer
    and without verification of the certificate. *)
Definition probe_request (ev : OpenPortEvent) (tok : string)
    (req : request) : Prop :=
  (∃ path, url req = api_url ev path)
  ∧ headers req = [("Authorization", "Bearer " ++ tok)]
  ∧ verify req = false.

(** The fields of the active hunter that are no dict of pod names. *)
Definition active_fields (s : Active.hunter)
  : OpenPortEvent * string * (pyval * pyval * pyval * pyval * pyval) :=
  (Active.event s, Active.service_account_token_evidence s,
   (Active.api_server_evidence s, Active.all_namespaces_evidence s,
    Active.namespace_roles_evidence s, Active.all_roles_evidence s,
    Active.cluster_roles_evidence s)).

(** What a pod-list probe leaves alone: the fields that are no dict, the
    events published, and the namespaces the dict already has. *)
Definition active_frame (m0 m : mem Active.hunter) : Prop :=
  active_fields (self m) = active_fields (self m0)
  ∧ published m = published m0
  ∧ ∀ k, is_Some (Active.namespaces_and_their_pod_names (self m0) !! k) →
         is_Some (Active.namespaces_and_their_pod_names (self m) !! k).

(** The methods of the active hunter that decode the body of the answer. *)
Definition decoding_probes (json_loads : bytes → result json) (w : world)
  : list ((Active.hunter → request) * M Active.hunter bool) :=
  active_pod_lists json_loads w
  ++ [ (Active.api_request GET "/api/v1/namespaces" None,
        Active.get_all_namespaces json_loads w) ].

(** The requests of a passive hunter on [ev] that holds the token [tok]. *)
Definition passive_requests_ok (ev : OpenPortEvent) (tok : string)
    (m : mem Passive.hunter) : Prop :=
  Passive.event (self m) = ev
  ∧ Passive.service_account_token_evidence (self m) = tok
  ∧ Forall (λ req, method req = GET ∧ probe_request ev tok req) (sent m).

Definition active_requests_ok (ev : OpenPortEvent) (tok : string)
    (m : mem Active.hunter) : Prop :=
  Active.event (self m) = ev
  ∧ Active.service_account_token_evidence (self m) = tok
  ∧ Forall (λ req, method req = GET ∧ probe_request ev tok req) (sent m).

(** ** Further worlds for the examples *)

(** An API server that breaks off in the middle of the body of its answer:
    requests raises ChunkedEncodingError, which derives from IOError through
    RequestException and is no ConnectionError. *)
Definition breaking_world : world :=
  {| read_file := token_mounted "tok"; send := fun _ => Raise IOError |}.

(** A pod list whose second item has no namespace, and what it decodes
    to. *)
Definition orphan_text : string :=
  "{" ++ quoted "metadata" ++ ": {" ++ quoted "name" ++ ": "
      ++ quoted "orphan" ++ "}}".

Definition orphan_doc : json :=
  JDict [("metadata", JDict [("name", JStr "orphan")])].

Definition broken_text : string :=
  "{" ++ quoted "items" ++ ": [" ++ pod_text "kube-system" "dns-1" ++ ", "
      ++ orphan_text ++ ", " ++ pod_text "default" "web" ++ "]}".

Definition broken_doc : json :=
  JDict [("items", JList [pod_doc "kube-system" "dns-1"; orphan_doc;
                          pod_doc "default" "web"])].

(** json.loads on that document, the only one its example decodes. *)
Definition loads_broken (b : bytes) : result json :=
  if String.eqb (string_of_list_byte b) broken_text then Ok broken_doc
  else Raise ValueError.

Definition broken_world : world :=
  {| read_file := token_mounted "tok";
     send := fun _ => respond 200 broken_text |}.

(** A proxy that hands the pod list on with status 203, and one that answers
    every request with status 401 and a line of text. *)
Definition proxied_world : world :=
  {| read_file := token_mounted "tok";
     send := fun _ => respond 203 pods_text |}.

Definition unauthorized_world : world :=
  {| read_file := token_mounted "tok";
     send := fun _ => respond 401 "Unauthorized" |}.

(** The world of [mixed_world] on a pod with more files than the token. *)
Definition roomy_world : world :=
  {| read_file := fun path => if String.eqb path token_path then Ok "tok"
                              else Ok "some other file";
     send := send_mixed |}.

(** ** Exceptions that leave a probe *)

(** The exception of an answer that the handler of a probe does not catch:
    any exception of the requests call that is no [ConnectionError]. *)
Definition uncaught (answer : result response) : option exn :=
  match answer with
  | Ok _ => None
  | Raise e => if is_ConnectionError e then None else Some e
  end.

(** An API server that answers GET /api and breaks off in the middle of the
    body of the pod list of all namespaces (ChunkedEncodingError of
    requests, an IOError that is no ConnectionError). *)
Definition versions_text : string :=
  "{" ++ quoted "kind" ++ ": " ++ quoted "APIVersions" ++ "}".

Definition send_torn (req : request) : result response :=
  if String.eqb (url req) "https://10.96.0.1:443/api/v1/pods"
  then Raise IOError
  else respond 200 versions_text.

Definition torn_world : world :=
  {| read_file := token_mounted "tok"; send := send_torn |}.

(** An API server that answers every request with status 200 and an empty
    body, and json.loads on that body, the only one its example decodes:
    there is no document in it. *)
Definition empty_world : world :=
  {| read_file := token_mounted "tok"; send := fun _ => respond 200 "" |}.

Definition loads_empty (b : bytes) : result json := Raise ValueError.

(** ** Basic facts *)

Lemma py_ne_bytes_str (b : bytes) (s : string) :
  py_ne (VBytes b) (VStr s) = true.
Proof. reflexivity. Qed.

Lemma verdict_status (res : response) :
  verdict res = (status_code res =? 200)%Z.
Proof. unfold verdict. rewrite py_ne_bytes_str. apply andb_true_r. Qed.

Lemma verdict_false_of_status (res : response) :
  status_code res ≠ 200%Z → verdict res = false.
Proof. intros Hne. rewrite verdict_status. by apply Z.eqb_neq. Qed.

Ltac unfold_monad :=
  unfold try_except, bind, ret, lift, get_self, set_self, publish_event,
    requests_call, open_read in *.

(** ** The passive hunter, method by method *)

Lemma passive_token_read w m :
  Passive.get_service_account_token w m =
  match read_file w token_path with
  | Ok tok =>
      (Ok true,
       Mem (Passive.set_service_account_token_evidence tok (self m))
         (published m) (sent m))
  | Raise e => (if is_IOError e then Ok false else Raise e, m)
  end.
Proof.
  unfold Passive.get_service_account_token. unfold_monad.
  destruct (read_file w _) as [tok|e]; [reflexivity|].
  destruct (is_IOError e); reflexivity.
Qed.

Lemma passive_step_effect w st m :
  In st (passive_steps w) →
  step_method st m = probe_effect w (step_request st (self m)) (step_store st) m.
Proof.
  intros [<- | [<- | [<- | []]]];
    cbn [step_method step_request step_store api_step all_pods_step
           default_pods_step];
    unfold Passive.access_api_server, Passive.get_pods_list_under_all_namespace,
      Passive.get_pods_list_under_default_namespace, probe_effect;
    unfold_monad;
    (destruct (send w _) as [res|e]; [reflexivity|]);
    destruct (is_ConnectionError e); reflexivity.
Qed.

Lemma all_pods_request_set_api s v :
  Passive.all_pods_request (Passive.set_api_server_evidence v s)
  = Passive.all_pods_request s.
Proof. reflexivity. Qed.

Lemma default_pods_request_set_api s v :
  Passive.default_pods_request (Passive.set_api_server_evidence v s)
  = Passive.default_pods_request s.
Proof. reflexivity. Qed.

Lemma default_pods_request_set_all s v :
  Passive.default_pods_request
    (Passive.set_pod_list_under_all_namespaces_evidence v s)
  = Passive.default_pods_request s.
Proof. reflexivity. Qed.

(** [execute] once the token is read, in closed form: the three requests go
    out in order, each answer decides on its own evidence field and its own
    event. *)
Lemma passive_execute_with_token w m tok :
  read_file w token_path = Ok tok →
  transport_failure_only w →
  let s := Passive.set_service_account_token_evidence tok (self m) in
  let a1 := send w (Passive.api_request s) in
  let a2 := send w (Passive.all_pods_request s) in
  let a3 := send w (Passive.default_pods_request s) in
  Passive.execute w m =
  (Ok tt,
   Mem (store_if a3 Passive.set_pod_list_under_default_namespace_evidence
          (store_if a2 Passive.set_pod_list_under_all_namespaces_evidence
             (store_if a1 Passive.set_api_server_evidence s)))
       (published m ++
          ServiceAccountTokenAccess (VStr tok)
          :: finding_of a1 ServerApiAccess
          ++ finding_of a2 PodListUnderAllNamespaces
          ++ finding_of a3 PodListUnderDefaultNamespace)
       (sent m ++ [Passive.api_request s; Passive.all_pods_request s;
                   Passive.default_pods_request s])).
Proof.
  intros Htok Hw s a1 a2 a3.
  assert (C1 : ∀ e, a1 = Raise e → is_ConnectionError e = true)
    by (intros e; apply Hw).
  assert (C2 : ∀ e, a2 = Raise e → is_ConnectionError e = true)
    by (intros e; apply Hw).
  assert (C3 : ∀ e, a3 = Raise e → is_ConnectionError e = true)
    by (intros e; apply Hw).
  unfold Passive.execute.
  unfold bind at 1. rewrite passive_token_read, Htok.
  unfold Passive.access_api_server, Passive.get_pods_list_under_all_namespace,
    Passive.get_pods_list_under_default_namespace.
  unfold_monad. cbn [self published sent].
  fold s. fold a1. clearbody a1.
  destruct a1 as [r1|e1];
    [destruct (verdict r1) eqn:V1 | rewrite (C1 e1 eq_refl)]; clear C1.
  all: cbn [self published sent];
    rewrite ?all_pods_request_set_api; fold a2; clearbody a2;
    (destruct a2 as [r2|e2];
     [destruct (verdict r2) eqn:V2 | rewrite (C2 e2 eq_refl)]; clear C2).
  all: cbn [self published sent];
    rewrite ?default_pods_request_set_all, ?default_pods_request_set_api;
    fold a3; clearbody a3;
    (destruct a3 as [r3|e3];
     [destruct (verdict r3) eqn:V3 | rewrite (C3 e3 eq_refl)]; clear C3).
  all: unfold finding_of, store_if; cbn [self published sent].
  all: rewrite ?V1, ?V2, ?V3.
  all: cbn [app]; rewrite <- ?app_assoc; cbn [app]; reflexivity.
Qed.

Lemma passive_run_with_token w ev tok :
  read_file w token_path = Ok tok →
  transport_failure_only w →
  let s := passive_with_token ev tok in
  let a1 := send w (Passive.api_request s) in
  let a2 := send w (Passive.all_pods_request s) in
  let a3 := send w (Passive.default_pods_request s) in
  fst (Passive.run w ev) = Ok tt
  ∧ published (snd (Passive.run w ev)) =
      ServiceAccountTokenAccess (VStr tok)
      :: finding_of a1 ServerApiAccess
      ++ finding_of a2 PodListUnderAllNamespaces
      ++ finding_of a3 PodListUnderDefaultNamespace
  ∧ sent (snd (Passive.run w ev)) =
      [Passive.api_request s; Passive.all_pods_request s;
       Passive.default_pods_request s].
Proof.
  intros Htok Hw. cbv zeta. unfold Passive.run.
  rewrite (passive_execute_with_token w _ tok Htok Hw).
  repeat split.
Qed.

Lemma finding_of_failed answer mk :
  match answer with
  | Ok res => verdict res = false
  | Raise _ => True
  end → finding_of answer mk = [].
Proof. destruct answer as [res|e]; simpl; [intros ->|]; reflexivity. Qed.

Lemma finding_of_other answer (mk mk' : pyval → vulnerability) :
  (∀ x y, mk x ≠ mk' y) → ∀ y, ¬ In (mk' y) (finding_of answer mk).
Proof.
  intros Hne y. destruct answer as [res|e]; simpl; [|tauto].
  destruct (verdict res); simpl; [|tauto].
  intros [Heq|[]]. by apply (Hne _ _ Heq).
Qed.

(** ** Properties kept by every step of a method *)

Section Preserves.
Context {H : Type} (Q : list vulnerability → list request → Prop).

Let P (m : mem H) : Prop := Q (published m) (sent m).

Lemma preserves_ret {A} (a : A) : preserves P (ret a).
Proof. intros m Hm. exact Hm. Qed.

Lemma preserves_lift {A} (r : result A) : preserves P (lift r).
Proof. intros m Hm. exact Hm. Qed.

Lemma preserves_get_self : preserves P get_self.
Proof. intros m Hm. exact Hm. Qed.

Lemma preserves_set_self (f : H → H) : preserves P (set_self f).
Proof. intros m Hm. exact Hm. Qed.

Lemma preserves_open_read w path : preserves P (open_read w path).
Proof. intros m Hm. exact Hm. Qed.

Lemma preserves_requests_call w req :
  (∀ pub snt, Q pub snt → Q pub (snt ++ [req])) →
  preserves P (requests_call w req).
Proof. intros Hreq m Hm. apply Hreq, Hm. Qed.

Lemma preserves_bind {A B} (c : M H A) (k : A → M H B) :
  preserves P c → (∀ a, preserves P (k a)) → preserves P (bind c k).
Proof.
  intros Hc Hk m Hm. unfold bind. specialize (Hc m Hm).
  destruct (c m) as [[a|e] m']; [apply Hk|]; exact Hc.
Qed.

Lemma preserves_try_except {A} (body handler : M H A) catches :
  preserves P body → preserves P handler →
  preserves P (try_except body catches handler).
Proof.
  intros Hb Hh m Hm. unfold try_except. specialize (Hb m Hm).
  destruct (body m) as [[a|e] m']; [exact Hb|].
  destruct (catches e); [apply Hh|]; exact Hb.
Qed.

Lemma preserves_for_each {A} (l : list A) (body : A → M H unit) :
  (∀ x, preserves P (body x)) → preserves P (for_each l body).
Proof.
  intros Hbody. induction l as [|x l IH]; simpl.
  - apply preserves_ret.
  - apply preserves_bind; [apply Hbody | intros _; exact IH].
Qed.
End Preserves.

Ltac preserves_step :=
  first
    [ apply preserves_ret | apply preserves_lift | apply preserves_get_self
    | apply preserves_set_self | apply preserves_open_read
    | apply preserves_try_except | apply preserves_for_each; intros ?
    | apply preserves_bind; [|intros ?]
    | apply preserves_requests_call ].

(** ** The active hunter *)

Lemma quiet_gets_get pub snt meth path s :
  meth = GET →
  quiet_gets pub snt → quiet_gets pub (snt ++ [Active.api_request meth path None s]).
Proof.
  intros -> [Hpub Hsnt]. split; [exact Hpub|].
  apply Forall_app. split; [exact Hsnt|]. by repeat constructor.
Qed.

Lemma active_execute_quiet json_loads w :
  preserves (λ m, quiet_gets (published m) (sent m))
    (Active.execute json_loads w).
Proof.
  unfold Active.execute, Active.get_service_account_token,
    Active.get_pods_list_under_all_namespace,
    Active.get_pods_list_under_default_namespace, Active.record_pod,
    Active.all_pods_request, Active.default_pods_request.
  repeat preserves_step.
  all: try (intros pub snt; by apply quiet_gets_get).
  destruct a; repeat preserves_step.
  all: try (intros pub snt; by apply quiet_gets_get).
Qed.

Lemma active_token_read w m :
  Active.get_service_account_token w m =
  match read_file w token_path with
  | Ok tok =>
      (Ok true,
       Mem (Active.set_service_account_token_evidence tok (self m))
         (published m) (sent m))
  | Raise e => (if is_IOError e then Ok false else Raise e, m)
  end.
Proof.
  unfold Active.get_service_account_token. unfold_monad.
  destruct (read_file w _) as [tok|e]; [reflexivity|].
  destruct (is_IOError e); reflexivity.
Qed.

Lemma for_each_record_pod_cons item items m k v :
  pod_entry item = Ok (k, v) →
  for_each (item :: items) Active.record_pod m
  = for_each items Active.record_pod
      (Mem (Active.set_pod_name k v (self m)) (published m) (sent m)).
Proof.
  intros E. cbn [for_each]. unfold bind at 1, Active.record_pod.
  unfold bind, lift, set_self. rewrite E. reflexivity.
Qed.

Lemma entries_of_cons item items :
  entries_of (item :: items)
  = match pod_entry item with
    | Ok e => e :: entries_of items
    | Raise _ => entries_of items
    end.
Proof.
  unfold entries_of. cbn [omap list_omap].
  by destruct (pod_entry item).
Qed.

(** The loop over the items of a pod list, when every item has the shape of
    a pod: it ends, and it makes the assignments of the entries in order. *)
Lemma for_each_record_pod (items : list json) (m : mem Active.hunter) :
  Forall (λ item, raises (pod_entry item) = false) items →
  let r := for_each items Active.record_pod m in
  fst r = Ok tt
  ∧ Active.namespaces_and_their_pod_names (self (snd r))
    = insert_entries (Active.namespaces_and_their_pod_names (self m))
        (entries_of items).
Proof.
  intros Hitems. revert m. cbv zeta.
  induction Hitems as [|item items Hitem _ IH]; intros m.
  - repeat split.
  - destruct (pod_entry item) as [[k v]|e] eqn:E; [|discriminate Hitem].
    rewrite (for_each_record_pod_cons _ _ _ _ _ E), entries_of_cons, E.
    apply IH.
Qed.

Lemma active_pod_list_unfold json_loads w req probe m :
  In (req, probe) (active_pod_lists json_loads w) →
  probe m = pod_list_effect json_loads w (req (self m)) m.
Proof.
  intros [[= <- <-] | [[= <- <-] | []]].
  all: unfold Active.get_pods_list_under_all_namespace,
         Active.get_pods_list_under_default_namespace, pod_list_effect,
         handled.
  all: unfold_monad.
  all: destruct (send w _) as [res|e]; [|by destruct (is_ConnectionError e)].
  all: destruct (json_loads _) as [doc|e];
         [|by destruct (is_ConnectionError e)].
  all: destruct (getitem doc _) as [its|e];
         [|by destruct (is_ConnectionError e)].
  all: destruct (iter its) as [items|e];
         [|by destruct (is_ConnectionError e)].
  all: destruct (for_each items _ _) as [[[]|e] m2];
         [reflexivity | by destruct (is_ConnectionError e)].
Qed.

Lemma active_pod_list_decoded json_loads w req probe m res doc its items :
  In (req, probe) (active_pod_lists json_loads w) →
  send w (req (self m)) = Ok res →
  json_loads (content res) = Ok doc →
  getitem doc "items" = Ok its →
  iter its = Ok items →
  Forall (λ item, raises (pod_entry item) = false) items →
  fst (probe m) = Ok (verdict res)
  ∧ Active.namespaces_and_their_pod_names (self (snd (probe m)))
    = insert_entries (Active.namespaces_and_their_pod_names (self m))
        (entries_of items).
Proof.
  intros Hin Hsend Hdoc Hits Hiter Hitems.
  rewrite (active_pod_list_unfold _ _ _ _ _ Hin). unfold pod_list_effect.
  rewrite Hsend, Hdoc, Hits, Hiter.
  destruct (for_each_record_pod items
              (Mem (self m) (published m) (sent m ++ [req (self m)])) Hitems)
    as (Hr & Hmap).
  destruct (for_each items Active.record_pod _) as [[[]|e] m'];
    [|discriminate Hr].
  split; [reflexivity | exact Hmap].
Qed.

Lemma insert_entries_app d l1 l2 :
  insert_entries d (l1 ++ l2) = insert_entries (insert_entries d l1) l2.
Proof. apply foldl_app. Qed.

Lemma insert_entries_other d entries (k : pykey) :
  Forall (λ e, e.1 ≠ k) entries →
  insert_entries d entries !! k = d !! k.
Proof.
  intros Hne. revert d.
  induction Hne as [|[k' v] entries Hk _ IH]; intros d; [reflexivity|].
  cbn [insert_entries foldl]. fold (insert_entries (<[k':=v]> d) entries).
  rewrite IH. by apply lookup_insert_ne.
Qed.

Lemma insert_entries_last d before k v after :
  Forall (λ e, e.1 ≠ k) after →
  insert_entries d (before ++ (k, v) :: after) !! k = Some v.
Proof.
  intros Hafter. rewrite insert_entries_app.
  cbn [insert_entries foldl].
  fold (insert_entries (<[k:=v]> (insert_entries d before)) after).
  rewrite insert_entries_other by exact Hafter.
  apply lookup_insert_eq.
Qed.

Lemma entries_of_app l1 l2 :
  entries_of (l1 ++ l2) = (entries_of l1 ++ entries_of l2)%list.
Proof. apply omap_app. Qed.

Lemma entries_of_other (k : pykey) items :
  Forall (λ item, ∀ v, pod_entry item ≠ Ok (k, v)) items →
  Forall (λ e, e.1 ≠ k) (entries_of items).
Proof.
  induction 1 as [|item items Hitem _ IH]; [constructor|].
  rewrite entries_of_cons.
  destruct (pod_entry item) as [[k' v]|e] eqn:E; [|exact IH].
  constructor; [|exact IH].
  cbn. intros ->. by apply (Hitem v).
Qed.

(** The token readers and the passive probes return on the failures their
    handlers name: an IOError of the file, a connection error of the
    request. *)
Lemma token_readers_return (w : world) (mp : mem Passive.hunter)
    (ma : mem Active.hunter) (e : exn) :
  read_file w token_path = Raise e → is_IOError e = true →
  Passive.get_service_account_token w mp = (Ok false, mp)
  ∧ Active.get_service_account_token w ma = (Ok false, ma).
Proof.
  intros Hread He. rewrite passive_token_read, active_token_read, Hread, He.
  split; reflexivity.
Qed.

Lemma passive_step_returns (w : world) (st : probe_step)
    (m : mem Passive.hunter) :
  In st (passive_steps w) →
  transport_failure_only w →
  raises (fst (step_method st m)) = false.
Proof.
  intros Hst Hw. rewrite (passive_step_effect w st m Hst). unfold probe_effect.
  destruct (send w _) as [res|e] eqn:E; [reflexivity|].
  by rewrite (Hw _ _ E).
Qed.

(** When the token is read, the run publishes a ServerApiAccess event
    exactly when GET /api is answered with status 200, and its evidence is
    the body of the answer. *)
Lemma api_finding_iff_status (w : world) (ev : OpenPortEvent) (tok : string)
    (b : pyval) :
  read_file w token_path = Ok tok →
  transport_failure_only w →
  In (ServerApiAccess b) (published (snd (Passive.run w ev)))
  ↔ ∃ res, send w (Passive.api_request (passive_with_token ev tok)) = Ok res
           ∧ status_code res = 200%Z ∧ b = VBytes (content res).
Proof.
  intros Htok Hw.
  pose proof (passive_run_with_token w ev tok Htok Hw) as Hrun.
  cbv zeta in Hrun. destruct Hrun as (_ & Hpub & _). rewrite Hpub. split.
  - intros [Heq | Hin]; [discriminate Heq|].
    apply in_app_or in Hin. destruct Hin as [Hin | Hin].
    + destruct (send w _) as [res|e]; [|destruct Hin].
      cbn [finding_of] in Hin. destruct (verdict res) eqn:Hv; [|destruct Hin].
      destruct Hin as [[= <-] | []]. exists res.
      rewrite verdict_status in Hv. apply Z.eqb_eq in Hv. by repeat split.
    + apply in_app_or in Hin. destruct Hin as [Hin | Hin]; exfalso;
        revert Hin; apply finding_of_other; discriminate.
  - intros (res & Hsend & Hstatus & ->). right. apply in_or_app. left.
    rewrite Hsend. cbn [finding_of].
    rewrite verdict_status, Hstatus. left. reflexivity.
Qed.

(** ** The example world with a dropped connection *)

Lemma mixed_world_transport : transport_failure_only mixed_world.
Proof.
  intros req e. cbn [send mixed_world]. unfold send_mixed, respond.
  repeat case_match; intros [= <-]; reflexivity.
Qed.

(** ** Runs of the passive hunter, whatever the requests raise *)

Lemma passive_run_without_token w ev e :
  read_file w token_path = Raise e →
  Passive.run w ev
  = (if is_IOError e then Ok tt else Raise e, Passive.start ev).
Proof.
  intros Hread. unfold Passive.run, Passive.execute. unfold bind at 1.
  rewrite passive_token_read, Hread. by destruct (is_IOError e).
Qed.

(** [execute] once the token is read, for every world: a probe whose request
    raises an exception that its handler does not catch ends the run. *)
Lemma passive_run_closed w ev tok :
  read_file w token_path = Ok tok →
  let s := passive_with_token ev tok in
  let a1 := send w (Passive.api_request s) in
  let a2 := send w (Passive.all_pods_request s) in
  let a3 := send w (Passive.default_pods_request s) in
  fst (Passive.run w ev)
  = match uncaught a1, uncaught a2, uncaught a3 with
    | Some e, _, _ | None, Some e, _ | None, None, Some e => Raise e
    | None, None, None => Ok tt
    end
  ∧ published (snd (Passive.run w ev))
    = ServiceAccountTokenAccess (VStr tok)
      :: finding_of a1 ServerApiAccess
      ++ match uncaught a1 with
         | Some _ => []
         | None =>
             finding_of a2 PodListUnderAllNamespaces
             ++ match uncaught a2 with
                | Some _ => []
                | None => finding_of a3 PodListUnderDefaultNamespace
                end
         end
  ∧ sent (snd (Passive.run w ev))
    = Passive.api_request s
      :: match uncaught a1 with
         | Some _ => []
         | None =>
             Passive.all_pods_request s
             :: match uncaught a2 with
                | Some _ => []
                | None => [Passive.default_pods_request s]
                end
         end.
Proof.
  intros Htok s a1 a2 a3.
  destruct (Passive.run w ev) as [r m] eqn:Hrun. cbn [fst snd].
  unfold Passive.run, Passive.execute in Hrun.
  unfold bind at 1 in Hrun. rewrite passive_token_read, Htok in Hrun.
  unfold Passive.access_api_server, Passive.get_pods_list_under_all_namespace,
    Passive.get_pods_list_under_default_namespace in Hrun.
  unfold_monad. cbn [self published sent Passive.start] in Hrun.
  fold (passive_with_token ev tok) in Hrun. fold s a1 in Hrun.
  clearbody a1.
  destruct a1 as [r1|e1];
    [destruct (verdict r1) eqn:V1 | destruct (is_ConnectionError e1) eqn:C1].
  all: cbn [self published sent uncaught] in Hrun |- *; rewrite ?C1;
    rewrite ?all_pods_request_set_api in Hrun; fold a2 in Hrun; clearbody a2.
  all: destruct a2 as [r2|e2];
    [destruct (verdict r2) eqn:V2 | destruct (is_ConnectionError e2) eqn:C2].
  all: cbn [self published sent uncaught] in Hrun |- *; rewrite ?C2;
    rewrite ?default_pods_request_set_all, ?default_pods_request_set_api
      in Hrun;
    fold a3 in Hrun; clearbody a3.
  all: destruct a3 as [r3|e3];
    [destruct (verdict r3) eqn:V3 | destruct (is_ConnectionError e3) eqn:C3].
  all: cbn [self published sent uncaught fst snd finding_of app] in Hrun |- *;
    rewrite ?C3, ?V1, ?V2, ?V3; injection Hrun as <- <-;
    cbn [published sent app]; rewrite <- ?app_assoc; cbn [app].
  all: repeat split.
Qed.

Lemma in_published_of_run w ev tok v :
  read_file w token_path = Ok tok →
  let s := passive_with_token ev tok in
  In v (published (snd (Passive.run w ev))) →
  v = ServiceAccountTokenAccess (VStr tok)
  ∨ In v (finding_of (send w (Passive.api_request s)) ServerApiAccess)
  ∨ In v (finding_of (send w (Passive.all_pods_request s))
            PodListUnderAllNamespaces)
  ∨ In v (finding_of (send w (Passive.default_pods_request s))
            PodListUnderDefaultNamespace).
Proof.
  intros Htok s.
  pose proof (passive_run_closed w ev tok Htok) as Hrun.
  cbv zeta in Hrun. destruct Hrun as (_ & Hpub & _). rewrite Hpub.
  intros [<- | Hin]; [by left|]. right.
  apply in_app_or in Hin. destruct Hin as [Hin | Hin]; [by left|]. right.
  destruct (uncaught _); [destruct Hin|].
  apply in_app_or in Hin. destruct Hin as [Hin | Hin]; [by left|]. right.
  destruct (uncaught _); [destruct Hin | exact Hin].
Qed.

Lemma api_url_inj ev p1 p2 : api_url ev p1 = api_url ev p2 → p1 = p2.
Proof.
  unfold api_url. intros Heq.
  do 4 apply String.app_inj in Heq. exact Heq.
Qed.

Lemma passive_requests_distinct s :
  Passive.api_request s ≠ Passive.all_pods_request s
  ∧ Passive.api_request s ≠ Passive.default_pods_request s
  ∧ Passive.all_pods_request s ≠ Passive.default_pods_request s.
Proof.
  repeat split; intros Heq; apply (f_equal url) in Heq;
    apply api_url_inj in Heq; discriminate Heq.
Qed.

(** ** Properties of the hunters *)

(** C1: when reading the service account token file fails, a run of either
    hunter publishes no event and sends no request, so that no event of a
    token-dependent step (ServerApiAccess, PodListUnderAllNamespaces,
    PodListUnderDefaultNamespace) comes out of such a run; when the failure
    is an IOError the run ends without an exception. *)
Theorem token_failure_stops_the_run
    (json_loads : bytes → result json) (w : world) (ev : OpenPortEvent)
    (e : exn) :
  read_file w token_path = Raise e →
  let p := Passive.run w ev in
  let a := Active.run json_loads w ev in
  (published (snd p) = [] ∧ sent (snd p) = [])
  ∧ (published (snd a) = [] ∧ sent (snd a) = [])
  ∧ (∀ v, token_dependent v = true →
          ¬ In v (published (snd p)) ∧ ¬ In v (published (snd a)))
  ∧ (is_IOError e = true → fst p = Ok tt ∧ fst a = Ok tt).
Proof.
  intros Hread. cbv zeta.
  assert (Hp : Passive.run w ev
               = (if is_IOError e then Ok tt else Raise e, Passive.start ev)).
  { unfold Passive.run, Passive.execute. unfold bind at 1.
    rewrite passive_token_read, Hread. by destruct (is_IOError e). }
  assert (Ha : Active.run json_loads w ev
               = (if is_IOError e then Ok tt else Raise e, Active.start ev)).
  { unfold Active.run, Active.execute. unfold bind at 1.
    rewrite active_token_read, Hread. by destruct (is_IOError e). }
  rewrite Hp, Ha. cbn [fst snd published sent Passive.start Active.start].
  split; [done|]. split; [done|]. split.
  - intros v _. split; intros [].
  - intros He. rewrite He. done.
Qed.

Lemma token_failure_stops_the_run_witness :
  let p := Passive.run tokenless_world example_event in
  let a := Active.run loads_examples tokenless_world example_event in
  (published (snd p) = [] ∧ sent (snd p) = [])
  ∧ (published (snd a) = [] ∧ sent (snd a) = [])
  ∧ (∀ v, token_dependent v = true →
          ¬ In v (published (snd p)) ∧ ¬ In v (published (snd a)))
  ∧ (is_IOError IOError = true → fst p = Ok tt ∧ fst a = Ok tt).
Proof.
  apply (token_failure_stops_the_run loads_examples tokenless_world
           example_event IOError).
  reflexivity.
Defined.

(** C2: the run at which the code leaves the claim.  The token is read and
    GET /api is answered with status 200 and an empty body: the run
    publishes a ServerApiAccess event, whose evidence is the empty body. *)
Theorem api_finding_on_empty_body :
  let s := passive_with_token example_event "tok" in
  read_file mixed_world token_path = Ok "tok"
  ∧ send mixed_world (Passive.api_request s)
    = Ok {| status_code := 200; content := [] |}
  ∧ fst (Passive.run mixed_world example_event) = Ok tt
  ∧ In (ServerApiAccess (VBytes []))
       (published (snd (Passive.run mixed_world example_event))).
Proof. vm_compute. repeat split. right. left. reflexivity. Qed.

(** C3, as the claim states it, fails: the connection breaks in the middle
    of the answer to GET /api/v1/pods, the exception is no ConnectionError
    and leaves [execute], and the pod list of the default namespace is not
    asked for. *)
Lemma default_pods_not_requested_example :
  let s := passive_with_token example_event "tok" in
  let r := Passive.run torn_world example_event in
  send torn_world (Passive.all_pods_request s) = Raise IOError
  ∧ is_ConnectionError IOError = false
  ∧ fst r = Raise IOError
  ∧ sent (snd r) = [Passive.api_request s; Passive.all_pods_request s].
Proof. vm_compute. repeat split. Qed.

(** C3, amended: once the token is read, a run of the passive hunter sends
    GET /api, then GET /api/v1/pods, then
    GET /api/v1/namespaces/default/pods, each of the later two exactly when
    no earlier request raised an exception other than a ConnectionError;
    so all three are sent, in this order, whenever the first two requests
    are answered by a response of any status or end in a connection error.
    In particular, when the pod list of all namespaces is asked for and
    ends in a connection error, no PodListUnderAllNamespaces event is
    published and the request for the pod list of the default namespace is
    still sent. *)
Theorem passive_probes_all_run (w : world) (ev : OpenPortEvent)
    (tok : string) :
  read_file w token_path = Ok tok →
  let s := passive_with_token ev tok in
  let a1 := send w (Passive.api_request s) in
  let a2 := send w (Passive.all_pods_request s) in
  let m := snd (Passive.run w ev) in
  sent m
  = Passive.api_request s
    :: match uncaught a1 with
       | Some _ => []
       | None =>
           Passive.all_pods_request s
           :: match uncaught a2 with
              | Some _ => []
              | None => [Passive.default_pods_request s]
              end
       end
  ∧ map (λ req, (method req, url req))
      [Passive.api_request s; Passive.all_pods_request s;
       Passive.default_pods_request s]
    = [(GET, "https://" ++ host ev ++ ":" ++ pretty (port ev) ++ "/api");
       (GET, "https://" ++ host ev ++ ":" ++ pretty (port ev)
             ++ "/api/v1/pods");
       (GET, "https://" ++ host ev ++ ":" ++ pretty (port ev)
             ++ "/api/v1/namespaces/default/pods")]
  ∧ (uncaught a1 = None → uncaught a2 = None →
     sent m = [Passive.api_request s; Passive.all_pods_request s;
               Passive.default_pods_request s])
  ∧ (uncaught a1 = None → a2 = Raise ConnectionError →
     In (Passive.default_pods_request s) (sent m)
     ∧ ∀ b, ¬ In (PodListUnderAllNamespaces b) (published m)).
Proof.
  intros Htok. cbv zeta.
  pose proof (passive_run_closed w ev tok Htok) as Hrun.
  cbv zeta in Hrun. destruct Hrun as (_ & Hpub & Hsent).
  split; [exact Hsent|]. split; [reflexivity|]. split.
  - intros H1 H2. by rewrite Hsent, H1, H2.
  - intros H1 H2. split.
    + rewrite Hsent, H1, H2. cbn [uncaught is_ConnectionError].
      right. right. left. reflexivity.
    + intros b Hin.
      apply (in_published_of_run w ev tok _ Htok) in Hin. cbv zeta in Hin.
      rewrite H2 in Hin. cbn [finding_of] in Hin.
      destruct Hin as [Heq | [Hin | [[] | Hin]]]; [discriminate Heq| |];
        revert Hin; apply finding_of_other; discriminate.
Qed.

Lemma passive_probes_all_run_witness :
  let s := passive_with_token example_event "tok" in
  let m := snd (Passive.run mixed_world example_event) in
  send mixed_world (Passive.all_pods_request s) = Raise ConnectionError
  ∧ sent m = [Passive.api_request s; Passive.all_pods_request s;
              Passive.default_pods_request s]
  ∧ map url (sent m)
    = ["https://10.96.0.1:443/api"; "https://10.96.0.1:443/api/v1/pods";
       "https://10.96.0.1:443/api/v1/namespaces/default/pods"]
  ∧ In (Passive.default_pods_request s) (sent m)
  ∧ ∀ b, ¬ In (PodListUnderAllNamespaces b) (published m).
Proof.
  cbv zeta.
  destruct (passive_probes_all_run mixed_world example_event "tok" eq_refl)
    as (_ & _ & Hall & Hdrop).
  split; [reflexivity|]. split; [apply Hall; reflexivity|].
  split; [rewrite Hall by reflexivity; reflexivity|].
  apply Hdrop; reflexivity.
Defined.

(** C4, as the claim states it, fails: the pod list of the default namespace
    is answered with status 403, the probe returns False, and the body of
    the answer is in the evidence field of the probe all the same. *)
Lemma evidence_written_on_forbidden :
  let m := Mem (passive_with_token example_event "tok") [] [] in
  let r := Passive.get_pods_list_under_default_namespace mixed_world m in
  send mixed_world (Passive.default_pods_request (self m))
  = respond 403 status_text
  ∧ fst r = Ok false
  ∧ Passive.pod_list_under_default_namespace_evidence (self m) = VStr ""
  ∧ Passive.pod_list_under_default_namespace_evidence (self (snd r))
    = VBytes (list_byte_of_string status_text).
Proof. vm_compute. repeat split. Qed.

(** C4, amended: a probe whose request ends in a connection error returns
    False and leaves the hunter object as it was (the evidence fields and,
    for the active hunter, the dict of pod names) and publishes nothing; a
    passive probe answered with a status other than 200 returns False and
    publishes nothing, but the body of the answer is assigned to the
    evidence field of the probe (the other fields are as before); and in a
    run of the passive hunter no event is published for a probe whose
    request ended in an exception or in a status other than 200. *)
Theorem failed_probe_effects (json_loads : bytes → result json)
    (w : world) :
  (∀ st m, In st (passive_steps w) →
     send w (step_request st (self m)) = Raise ConnectionError →
     step_method st m
     = (Ok false,
        Mem (self m) (published m) (sent m ++ [step_request st (self m)])))
  ∧ (∀ req probe m,
       In (req, probe) (active_pod_lists json_loads w) →
       send w (req (self m)) = Raise ConnectionError →
       probe m
       = (Ok false, Mem (self m) (published m) (sent m ++ [req (self m)])))
  ∧ (∀ st m res, In st (passive_steps w) →
       send w (step_request st (self m)) = Ok res →
       status_code res ≠ 200%Z →
       step_method st m
       = (Ok false,
          Mem (step_store st (VBytes (content res)) (self m)) (published m)
            (sent m ++ [step_request st (self m)])))
  ∧ (∀ ev st, In st (passive_steps w) →
       match read_file w token_path with
       | Ok tok =>
           match send w (step_request st (passive_with_token ev tok)) with
           | Ok res => status_code res ≠ 200%Z
           | Raise _ => True
           end
       | Raise _ => True
       end →
       ∀ b, ¬ In (step_finding st b) (published (snd (Passive.run w ev)))).
Proof.
  split; [|split; [|split]].
  - intros st m Hst Hsend. rewrite (passive_step_effect w st m Hst).
    unfold probe_effect. by rewrite Hsend.
  - intros req probe m Hin Hsend.
    rewrite (active_pod_list_unfold _ _ _ _ m Hin).
    unfold pod_list_effect. by rewrite Hsend.
  - intros st m res Hst Hsend Hstatus.
    rewrite (passive_step_effect w st m Hst).
    unfold probe_effect. by rewrite Hsend, (verdict_false_of_status _ Hstatus).
  - intros ev st Hst Hfail b.
    destruct (read_file w token_path) as [tok|e] eqn:Hread.
    2: { rewrite (passive_run_without_token w ev e Hread). intros []. }
    assert (Hnone : finding_of
                      (send w (step_request st (passive_with_token ev tok)))
                      (step_finding st) = []).
    { apply finding_of_failed. destruct (send w _) as [res|e]; [|exact I].
      by apply verdict_false_of_status. }
    intros Hin. apply (in_published_of_run w ev tok _ Hread) in Hin.
    cbv zeta in Hin.
    destruct Hst as [<- | [<- | [<- | []]]];
      cbn [step_request step_finding api_step all_pods_step
             default_pods_step] in *;
      rewrite Hnone in Hin;
      destruct Hin as [Heq | [Hin | [Hin | Hin]]];
      first [discriminate Heq | destruct Hin
            | revert Hin; apply finding_of_other; discriminate].
Qed.

Lemma failed_probe_effects_witness :
  let m := Mem (passive_with_token example_event "tok") [] [] in
  Passive.get_pods_list_under_default_namespace mixed_world m
  = (Ok false,
     Mem (Passive.set_pod_list_under_default_namespace_evidence
            (VBytes (list_byte_of_string status_text)) (self m))
       [] [Passive.default_pods_request (self m)])
  ∧ Passive.get_pods_list_under_all_namespace mixed_world m
    = (Ok false, Mem (self m) [] [Passive.all_pods_request (self m)])
  ∧ ∀ b, ¬ In (PodListUnderDefaultNamespace b)
             (published (snd (Passive.run mixed_world example_event))).
Proof.
  cbv zeta.
  destruct (failed_probe_effects loads_examples mixed_world)
    as (Hdrop & _ & Hstatus & Hrun).
  split; [|split].
  - apply (Hstatus (default_pods_step mixed_world)
             (Mem (passive_with_token example_event "tok") [] [])
             {| status_code := 403;
                content := list_byte_of_string status_text |}).
    + right. right. left. reflexivity.
    + reflexivity.
    + vm_compute. discriminate.
  - apply (Hdrop (all_pods_step mixed_world)
             (Mem (passive_with_token example_event "tok") [] [])).
    + right. left. reflexivity.
    + reflexivity.
  - apply (Hrun example_event (default_pods_step mixed_world)).
    + right. right. left. reflexivity.
    + vm_compute. discriminate.
Defined.

(** C5: the call at which the code leaves the claim.  The pod list of all
    namespaces is forbidden to the token: the API server answers with status
    403 and a Status object, which has no items, and the probe of the active
    hunter raises KeyError instead of returning False; the exception goes
    through [execute]. *)
Theorem active_pod_list_raises_on_forbidden :
  let m := Mem (active_with_token example_event "tok") [] [] in
  send forbidding_world (Active.all_pods_request (self m))
  = respond 403 status_text
  ∧ loads_examples (list_byte_of_string status_text) = Ok status_doc
  ∧ fst (Active.get_pods_list_under_all_namespace loads_examples
           forbidding_world m) = Raise (KeyError "items")
  ∧ fst (Active.run loads_examples forbidding_world example_event)
    = Raise (KeyError "items").
Proof. vm_compute. repeat split. Qed.

(** C6, as the claim states it, fails: in this run of the active hunter the
    token is read and both pod lists are answered with status 200 and a pod
    list, each of the three probes returns True, and no event is
    published. *)
Lemma active_run_publishes_nothing_example :
  let m0 := Active.start example_event in
  let r1 := Active.get_service_account_token open_world m0 in
  let r2 := Active.get_pods_list_under_all_namespace loads_examples
              open_world (snd r1) in
  let r3 := Active.get_pods_list_under_default_namespace loads_examples
              open_world (snd r2) in
  let r := Active.run loads_examples open_world example_event in
  fst r1 = Ok true ∧ fst r2 = Ok true ∧ fst r3 = Ok true
  ∧ fst r = Ok tt ∧ sent (snd r) = sent (snd r3)
  ∧ published (snd r) = [].
Proof. vm_compute. repeat split. Qed.

(** C6, amended: a run of the passive hunter in which the token is read
    publishes the event of the token read and then exactly one event for
    each probe that succeeds, in the order of the steps (GET /api, the pod
    list of all namespaces, the pod list of the default namespace), with
    the body of the answer as evidence, and none for a probe that fails or
    that the run does not reach because an earlier request raised an
    exception other than a ConnectionError; a run of the active hunter
    publishes no event, whatever its probes return. *)
Theorem findings_of_a_run (json_loads : bytes → result json) (w : world)
    (ev : OpenPortEvent) (tok : string) :
  read_file w token_path = Ok tok →
  let s := passive_with_token ev tok in
  let a1 := send w (Passive.api_request s) in
  let a2 := send w (Passive.all_pods_request s) in
  let a3 := send w (Passive.default_pods_request s) in
  published (snd (Passive.run w ev))
  = (ServiceAccountTokenAccess (VStr tok)
     :: finding_of a1 ServerApiAccess
     ++ match uncaught a1 with
        | Some _ => []
        | None =>
            finding_of a2 PodListUnderAllNamespaces
            ++ match uncaught a2 with
               | Some _ => []
               | None => finding_of a3 PodListUnderDefaultNamespace
               end
        end)%list
  ∧ (uncaught a1 = None → uncaught a2 = None →
     published (snd (Passive.run w ev))
     = (ServiceAccountTokenAccess (VStr tok)
        :: finding_of a1 ServerApiAccess
        ++ finding_of a2 PodListUnderAllNamespaces
        ++ finding_of a3 PodListUnderDefaultNamespace)%list)
  ∧ published (snd (Active.run json_loads w ev)) = [].
Proof.
  intros Htok. cbv zeta.
  pose proof (passive_run_closed w ev tok Htok) as Hrun.
  cbv zeta in Hrun. destruct Hrun as (_ & Hpub & _).
  split; [exact Hpub|]. split.
  - intros H1 H2. by rewrite Hpub, H1, H2.
  - apply (active_execute_quiet json_loads w (Active.start ev)).
    split; [reflexivity | constructor].
Qed.

Lemma findings_of_a_run_witness :
  published (snd (Passive.run torn_world example_event))
  = [ServiceAccountTokenAccess (VStr "tok");
     ServerApiAccess (VBytes (list_byte_of_string versions_text))]
  ∧ published (snd (Passive.run mixed_world example_event))
    = [ServiceAccountTokenAccess (VStr "tok"); ServerApiAccess (VBytes [])]
  ∧ published (snd (Active.run loads_examples mixed_world example_event)) = [].
Proof.
  destruct (findings_of_a_run loads_examples torn_world example_event "tok"
              eq_refl) as (Htorn & _ & _).
  destruct (findings_of_a_run loads_examples mixed_world example_event "tok"
              eq_refl) as (_ & Hmixed & Hactive).
  split; [exact Htorn|]. split; [|exact Hactive].
  apply Hmixed; reflexivity.
Defined.

(** C7: the calls at which the code leaves the claim.  The three role
    probes of the active hunter assign the body of their answer to one and
    the same field, [namespace_roles_evidence]; the fields
    [cluster_roles_evidence] and [all_roles_evidence] stay as [__init__]
    made them. *)
Theorem role_probes_share_one_field :
  let m := Mem (active_with_token example_event "tok") [] [] in
  let body := VBytes (list_byte_of_string roles_text) in
  let m1 := snd (Active.get_roles_for_namespace rbac_world "default" m) in
  let m2 := snd (Active.get_cluster_roles rbac_world m) in
  let m3 := snd (Active.get_all_roles rbac_world m) in
  Active.namespace_roles_evidence (self m1) = body
  ∧ (Active.namespace_roles_evidence (self m2) = body
     ∧ Active.cluster_roles_evidence (self m2) = VStr "")
  ∧ (Active.namespace_roles_evidence (self m3) = body
     ∧ Active.all_roles_evidence (self m3) = VStr "").
Proof. vm_compute. repeat split. Qed.

(** C8: after a pod-list probe of the active hunter has gone through the
    items of its response, the dict [namespaces_and_their_pod_names] binds a
    namespace to the name of the last item of that namespace: an item
    followed by no other item of its namespace decides the entry, whatever
    came before it. *)
Theorem last_pod_name_wins (json_loads : bytes → result json) (w : world)
    (req : Active.hunter → request) (probe : M Active.hunter bool)
    (m : mem Active.hunter) (res : response) (doc items : json)
    (before after : list json) (item : json) (ns : pykey) (name : json) :
  In (req, probe) (active_pod_lists json_loads w) →
  send w (req (self m)) = Ok res →
  json_loads (content res) = Ok doc →
  getitem doc "items" = Ok items →
  iter items = Ok (before ++ item :: after)%list →
  Forall (λ it, raises (pod_entry it) = false) (before ++ after)%list →
  pod_entry item = Ok (ns, name) →
  Forall (λ it, ∀ v, pod_entry it ≠ Ok (ns, v)) after →
  Active.namespaces_and_their_pod_names (self (snd (probe m))) !! ns
  = Some name.
Proof.
  intros Hin Hsend Hdoc Hitems Hiter Hpods Hitem Hafter.
  apply Forall_app in Hpods. destruct Hpods as [Hbefore Hpods].
  destruct (active_pod_list_decoded json_loads w req probe m res doc items
              (before ++ item :: after) Hin Hsend Hdoc Hitems Hiter)
    as (_ & Hmap).
  { apply Forall_app. split; [exact Hbefore|].
    constructor; [by rewrite Hitem | exact Hpods]. }
  rewrite Hmap, entries_of_app, entries_of_cons, Hitem.
  apply insert_entries_last. by apply entries_of_other.
Qed.

Lemma last_pod_name_wins_witness :
  Active.namespaces_and_their_pod_names
    (self (snd (Active.get_pods_list_under_all_namespace loads_examples
                  open_world
                  (Mem (active_with_token example_event "tok") [] []))))
    !! KStr "kube-system"
  = Some (JStr "dns-2").
Proof.
  apply (last_pod_name_wins loads_examples open_world
           Active.all_pods_request _ _
           {| status_code := 200; content := list_byte_of_string pods_text |}
           pods_doc
           (JList [pod_doc "kube-system" "dns-1"; pod_doc "kube-system" "dns-2";
                   pod_doc "default" "web"])
           [pod_doc "kube-system" "dns-1"] [pod_doc "default" "web"]
           (pod_doc "kube-system" "dns-2")).
  - left. reflexivity.
  - reflexivity.
  - vm_compute. reflexivity.
  - reflexivity.
  - reflexivity.
  - repeat constructor.
  - reflexivity.
  - repeat constructor. intros v. vm_compute. discriminate.
Defined.

(** C9: a run of the active hunter sends GET requests only, whatever the
    answers: no delete and no patch request is issued at all, hence none
    against an object the run did not create; and the methods that are to
    delete or patch a role or a cluster role send no request. *)
Theorem active_run_only_gets (json_loads : bytes → result json) (w : world)
    (ev : OpenPortEvent) :
  Forall (λ req, method req = GET ∧ mutating req = false)
    (sent (snd (Active.run json_loads w ev)))
  ∧ ∀ m, Active.delete_a_role m = (Ok tt, m)
         ∧ Active.delete_a_cluster_role m = (Ok tt, m)
         ∧ Active.patch_a_role m = (Ok tt, m)
         ∧ Active.patch_a_cluster_role m = (Ok tt, m).
Proof.
  split; [|by repeat split].
  destruct (active_execute_quiet json_loads w (Active.start ev)) as [_ Hsent].
  { split; [reflexivity | constructor]. }
  eapply Forall_impl; [exact Hsent|].
  intros req. unfold mutating. by destruct (method req).
Qed.

(** C10, as the claim states it, fails: the pod list of all namespaces is
    answered with status 200 and an empty body, and the probe of the active
    hunter does not return True: json.loads finds no document in the body
    and its ValueError leaves the probe and the run, which publishes
    nothing. *)
Lemma empty_body_breaks_active_probe :
  let m := Mem (active_with_token example_event "tok") [] [] in
  let r := Active.run loads_empty empty_world example_event in
  send empty_world (Active.all_pods_request (self m))
  = Ok {| status_code := 200; content := [] |}
  ∧ fst (Active.get_pods_list_under_all_namespace loads_empty empty_world m)
    = Raise ValueError
  ∧ fst r = Raise ValueError
  ∧ published (snd r) = [].
Proof. vm_compute. repeat split. Qed.

(** C10, amended: the comparison of the body of a response with [''] is
    always true, so the verdict of every probe is its test of the status
    alone.  A response with status 200 and an empty body is a success for
    the probes that look at nothing else of the body: the three passive
    probes return True, and a run of the passive hunter that sends the
    request of such a step publishes the event of the step with the empty
    body as evidence; delete_a_pod and patch_a_pod return True; the role
    probes return the empty body. *)
Theorem empty_body_counts_as_success (w : world) :
  (∀ b : bytes, py_ne (VBytes b) (VStr "") = true)
  ∧ (∀ r : response, verdict r = (status_code r =? 200)%Z)
  ∧ (∀ st m res, In st (passive_steps w) →
       send w (step_request st (self m)) = Ok res →
       status_code res = 200%Z → content res = [] →
       step_method st m
       = (Ok true,
          Mem (step_store st (VBytes []) (self m)) (published m)
            (sent m ++ [step_request st (self m)])))
  ∧ (∀ ev tok st res, In st (passive_steps w) →
       read_file w token_path = Ok tok →
       In (step_request st (passive_with_token ev tok))
          (sent (snd (Passive.run w ev))) →
       send w (step_request st (passive_with_token ev tok)) = Ok res →
       status_code res = 200%Z → content res = [] →
       In (step_finding st (VBytes []))
          (published (snd (Passive.run w ev))))
  ∧ (∀ pod_namespace pod_name m res,
       send w (Active.api_request DELETE
                 (Active.pod_path pod_namespace pod_name) None (self m))
       = Ok res →
       status_code res = 200%Z → content res = [] →
       fst (Active.delete_a_pod w pod_namespace pod_name m) = Ok true)
  ∧ (∀ pod_namespace pod_name m res,
       send w (Active.api_request PATCH
                 (Active.pod_path pod_namespace pod_name) (Some []) (self m))
       = Ok res →
       status_code res = 200%Z → content res = [] →
       fst (Active.patch_a_pod w pod_namespace pod_name m) = Ok true)
  ∧ (∀ namespace req probe m res,
       In (req, probe) (role_probes w namespace) →
       send w (req (self m)) = Ok res →
       status_code res = 200%Z → content res = [] →
       fst (probe m) = Ok (VBytes [])).
Proof.
  split; [intros b; apply py_ne_bytes_str|].
  split; [exact verdict_status|].
  assert (Hv : ∀ res, status_code res = 200%Z → verdict res = true)
    by (intros res Hs; by rewrite verdict_status, Hs).
  split; [|split; [|split; [|split]]].
  - intros st m res Hst Hsend Hstatus Hbody.
    rewrite (passive_step_effect w st m Hst). unfold probe_effect.
    by rewrite Hsend, (Hv res Hstatus), Hbody.
  - intros ev tok st res Hst Htok Hsent Hsend Hstatus Hbody.
    pose proof (passive_run_closed w ev tok Htok) as Hrun.
    cbv zeta in Hrun. destruct Hrun as (_ & Hpub & Hrun).
    rewrite Hrun in Hsent. rewrite Hpub. right.
    destruct (passive_requests_distinct (passive_with_token ev tok))
      as (H12 & H13 & H23).
    destruct Hst as [<- | [<- | [<- | []]]];
      cbn [step_request step_finding api_step all_pods_step
             default_pods_step] in *.
    + rewrite Hsend. cbn [finding_of]. rewrite (Hv res Hstatus), Hbody.
      left. reflexivity.
    + destruct Hsent as [Heq | Hsent]; [by destruct H12|].
      apply in_or_app. right.
      destruct (uncaught _); [destruct Hsent|].
      rewrite Hsend. cbn [finding_of]. rewrite (Hv res Hstatus), Hbody.
      left. reflexivity.
    + destruct Hsent as [Heq | Hsent]; [by destruct H13|].
      apply in_or_app. right.
      destruct (uncaught _); [destruct Hsent|].
      destruct Hsent as [Heq | Hsent]; [by destruct H23|].
      apply in_or_app. right.
      destruct (uncaught _); [destruct Hsent|].
      rewrite Hsend. cbn [finding_of]. rewrite (Hv res Hstatus), Hbody.
      left. reflexivity.
  - intros ns name m res Hsend Hstatus Hbody.
    unfold Active.delete_a_pod. unfold_monad.
    by rewrite Hsend, (Hv res Hstatus).
  - intros ns name m res Hsend Hstatus Hbody.
    unfold Active.patch_a_pod. unfold_monad.
    by rewrite Hsend, (Hv res Hstatus).
  - intros namespace req probe m res Hin Hsend Hstatus Hbody.
    destruct Hin as [[= <- <-] | [[= <- <-] | [[= <- <-] | []]]];
      unfold Active.get_roles_for_namespace, Active.get_cluster_roles,
        Active.get_all_roles, Active.content_or_False; unfold_monad;
      by rewrite Hsend, (Hv res Hstatus), Hbody.
Qed.

Lemma empty_body_counts_as_success_witness :
  let m := Mem (passive_with_token example_event "tok") [] [] in
  let a := Mem (active_with_token example_event "tok") [] [] in
  Passive.access_api_server mixed_world m
  = (Ok true,
     Mem (Passive.set_api_server_evidence (VBytes []) (self m)) []
       [Passive.api_request (self m)])
  ∧ In (ServerApiAccess (VBytes []))
       (published (snd (Passive.run mixed_world example_event)))
  ∧ fst (Active.delete_a_pod empty_world "default" "web" a) = Ok true
  ∧ fst (Active.get_cluster_roles empty_world a) = Ok (VBytes []).
Proof.
  cbv zeta.
  destruct (empty_body_counts_as_success mixed_world)
    as (_ & _ & Hstep & Hrun & _).
  destruct (empty_body_counts_as_success empty_world)
    as (_ & _ & _ & _ & Hpod & _ & Hrole).
  split; [|split; [|split]].
  - apply (Hstep (api_step mixed_world)
             (Mem (passive_with_token example_event "tok") [] [])
             {| status_code := 200; content := [] |});
      first [left; reflexivity | reflexivity].
  - apply (Hrun example_event "tok" (api_step mixed_world)
             {| status_code := 200; content := [] |});
      first [left; reflexivity | reflexivity].
  - apply (Hpod "default" "web"
             (Mem (active_with_token example_event "tok") [] [])
             {| status_code := 200; content := [] |});
      reflexivity.
  - apply (Hrole "default"
             (Active.api_request GET (Active.rbac ++ "/clusterroles") None)
             _ (Mem (active_with_token example_event "tok") [] [])
             {| status_code := 200; content := [] |});
      first [right; left; reflexivity | reflexivity].
Defined.

(** ** Properties beyond the runs of the hunters *)

(** X1: the name of an event tells its class: two events with the same name
    are of the same class, differ in their evidence at most, and have the
    same category. *)
Theorem vuln_name_class (v1 v2 : vulnerability) :
  vuln_name v1 = vuln_name v2 →
  v1 = with_evidence v2 (vuln_evidence v1)
  ∧ vuln_category v1 = vuln_category v2.
Proof.
  destruct v1, v2; cbn [vuln_name]; intros Hname;
    first [discriminate Hname | split; reflexivity].
Qed.

Lemma vuln_name_class_witness :
  ServerApiAccess (VStr "a")
  = with_evidence (ServerApiAccess (VBytes []))
      (vuln_evidence (ServerApiAccess (VStr "a")))
  ∧ vuln_category (ServerApiAccess (VStr "a"))
    = vuln_category (ServerApiAccess (VBytes [])).
Proof.
  apply (vuln_name_class (ServerApiAccess (VStr "a"))
           (ServerApiAccess (VBytes []))).
  reflexivity.
Defined.


(** ** More on the passive hunter *)

Lemma passive_step_request_store w st v s :
  In st (passive_steps w) →
  ∀ st', In st' (passive_steps w) →
  step_request st' (step_store st v s) = step_request st' s.
Proof.
  intros [<- | [<- | [<- | []]]] st' [<- | [<- | [<- | []]]]; reflexivity.
Qed.

Lemma passive_step_store_commute w st1 st2 v1 v2 s :
  In st1 (passive_steps w) → In st2 (passive_steps w) →
  step_store st1 v1 (step_store st2 v2 s)
  = step_store st2 v2 (step_store st1 v1 s)
  ∨ (step_request st1 = step_request st2 ∧ step_store st1 = step_store st2).
Proof.
  intros [<- | [<- | [<- | []]]] [<- | [<- | [<- | []]]];
    first [left; reflexivity | right; split; reflexivity].
Qed.

(** X2: a passive probe called a second time against the same world
    returns what it returned the first time and leaves the hunter object as
    the first call left it; neither call publishes anything. *)
Theorem passive_probe_repeatable (w : world) (st : probe_step)
    (m : mem Passive.hunter) :
  In st (passive_steps w) →
  let once := step_method st m in
  let twice := step_method st (snd once) in
  fst twice = fst once
  ∧ self (snd twice) = self (snd once)
  ∧ published (snd twice) = published m.
Proof.
  intros Hst. cbv zeta.
  rewrite (passive_step_effect w st m Hst).
  rewrite (passive_step_effect w st _ Hst).
  unfold probe_effect.
  destruct (send w (step_request st (self m))) as [res|e] eqn:E;
    cbn [fst snd self published sent].
  - rewrite (passive_step_request_store w st _ _ Hst st Hst), E.
    cbn [fst snd self published].
    repeat split.
    destruct Hst as [<- | [<- | [<- | []]]]; reflexivity.
  - rewrite E. repeat split.
Qed.

Lemma passive_probe_repeatable_witness :
  let m := Mem (passive_with_token example_event "tok") [] [] in
  let once := Passive.get_pods_list_under_default_namespace mixed_world m in
  let twice := Passive.get_pods_list_under_default_namespace mixed_world
                 (snd once) in
  fst twice = fst once
  ∧ self (snd twice) = self (snd once)
  ∧ published (snd twice) = published m.
Proof.
  apply (passive_probe_repeatable mixed_world (default_pods_step mixed_world)
           (Mem (passive_with_token example_event "tok") [] [])).
  right. right. left. reflexivity.
Defined.


(** X3: the passive probes do not depend on one another: two of them
    called in either order return the same values and leave the same hunter
    object, and publish nothing. *)
Theorem passive_probes_commute (w : world) (st1 st2 : probe_step)
    (m : mem Passive.hunter) :
  In st1 (passive_steps w) → In st2 (passive_steps w) →
  let a := step_method st1 m in
  let ab := step_method st2 (snd a) in
  let b := step_method st2 m in
  let ba := step_method st1 (snd b) in
  fst a = fst ba ∧ fst ab = fst b
  ∧ self (snd ab) = self (snd ba)
  ∧ published (snd ab) = published (snd ba).
Proof.
  intros H1 H2. cbv zeta.
  rewrite (passive_step_effect w st1 m H1), (passive_step_effect w st2 m H2).
  rewrite (passive_step_effect w st1 _ H1), (passive_step_effect w st2 _ H2).
  unfold probe_effect.
  destruct (send w (step_request st1 (self m))) as [r1|e1] eqn:E1;
    destruct (send w (step_request st2 (self m))) as [r2|e2] eqn:E2;
    cbn [fst snd self published sent];
    rewrite ?(passive_step_request_store w st1 _ _ H1 st2 H2),
            ?(passive_step_request_store w st2 _ _ H2 st1 H1), ?E1, ?E2;
    cbn [fst snd self published sent]; repeat split.
  destruct (passive_step_store_commute w st2 st1 (VBytes (content r2))
              (VBytes (content r1)) (self m) H2 H1) as [Hc | [Hreq Hstore]];
    [exact Hc|].
  rewrite Hreq in E2. rewrite E1 in E2. injection E2 as ->.
  by rewrite Hstore.
Qed.

Lemma passive_probes_commute_witness :
  let m := Mem (passive_with_token example_event "tok") [] [] in
  let a := Passive.access_api_server mixed_world m in
  let ab := Passive.get_pods_list_under_default_namespace mixed_world
              (snd a) in
  let b := Passive.get_pods_list_under_default_namespace mixed_world m in
  let ba := Passive.access_api_server mixed_world (snd b) in
  fst a = fst ba ∧ fst ab = fst b
  ∧ self (snd ab) = self (snd ba)
  ∧ published (snd ab) = published (snd ba).
Proof.
  apply (passive_probes_commute mixed_world (api_step mixed_world)
           (default_pods_step mixed_world)
           (Mem (passive_with_token example_event "tok") [] [])).
  - left. reflexivity.
  - right. right. left. reflexivity.
Defined.


(** X4: after a run of the passive hunter that read the token, the hunter
    object holds the event it was created on, the text of the token file,
    and in each evidence field the body of the answer to that probe,
    whatever its status; a field whose request ended in a connection error
    is still the empty str of [__init__]. *)
Theorem passive_run_evidence (w : world) (ev : OpenPortEvent) (tok : string) :
  read_file w token_path = Ok tok →
  transport_failure_only w →
  let s := passive_with_token ev tok in
  let field (answer : result response) : pyval :=
    match answer with
    | Ok res => VBytes (content res)
    | Raise _ => VStr ""
    end in
  let after := self (snd (Passive.run w ev)) in
  Passive.event after = ev
  ∧ Passive.service_account_token_evidence after = tok
  ∧ Passive.api_server_evidence after
    = field (send w (Passive.api_request s))
  ∧ Passive.pod_list_under_all_namespaces_evidence after
    = field (send w (Passive.all_pods_request s))
  ∧ Passive.pod_list_under_default_namespace_evidence after
    = field (send w (Passive.default_pods_request s)).
Proof.
  intros Htok Hw. cbv zeta. unfold Passive.run.
  rewrite (passive_execute_with_token w _ tok Htok Hw).
  cbn [snd self Passive.start].
  fold (passive_with_token ev tok).
  destruct (send w (Passive.api_request _)),
    (send w (Passive.all_pods_request _)),
    (send w (Passive.default_pods_request _)); repeat split.
Qed.

Lemma passive_run_evidence_witness :
  let after := self (snd (Passive.run mixed_world example_event)) in
  Passive.event after = example_event
  ∧ Passive.service_account_token_evidence after = "tok"
  ∧ Passive.api_server_evidence after = VBytes []
  ∧ Passive.pod_list_under_all_namespaces_evidence after = VStr ""
  ∧ Passive.pod_list_under_default_namespace_evidence after
    = VBytes (list_byte_of_string status_text).
Proof.
  apply (passive_run_evidence mixed_world example_event "tok").
  - reflexivity.
  - exact mixed_world_transport.
Defined.


(** X5: an exception of GET /api that is no ConnectionError is not handled:
    it leaves [execute], the event of the token read stays published, and
    neither pod list is asked for. *)
Theorem passive_run_stops_on_other_exception (w : world)
    (ev : OpenPortEvent) (tok : string) (e : exn) :
  read_file w token_path = Ok tok →
  send w (Passive.api_request (passive_with_token ev tok)) = Raise e →
  is_ConnectionError e = false →
  Passive.run w ev
  = (Raise e,
     Mem (passive_with_token ev tok)
       [ServiceAccountTokenAccess (VStr tok)]
       [Passive.api_request (passive_with_token ev tok)]).
Proof.
  intros Htok Hsend He.
  unfold Passive.run, Passive.execute.
  unfold bind at 1. rewrite passive_token_read, Htok.
  unfold bind at 1, get_self at 1. cbn [self Passive.start].
  unfold bind at 1, publish_event at 1. cbn [self published sent].
  unfold bind at 1.
  rewrite (passive_step_effect w (api_step w) _ (or_introl eq_refl)
           : Passive.access_api_server w _ = _).
  unfold probe_effect. cbn [api_step step_request step_store self published sent].
  fold (passive_with_token ev tok). rewrite Hsend, He. reflexivity.
Qed.

Lemma passive_run_stops_on_other_exception_witness :
  Passive.run breaking_world example_event
  = (Raise IOError,
     Mem (passive_with_token example_event "tok")
       [ServiceAccountTokenAccess (VStr "tok")]
       [Passive.api_request (passive_with_token example_event "tok")]).
Proof.
  apply (passive_run_stops_on_other_exception breaking_world example_event
           "tok" IOError); reflexivity.
Defined.


(** ** Invariants of the memory, for any property *)

Section Keeps.
Context {H : Type} (P : mem H → Prop).

Lemma keeps_ret {A} (a : A) : preserves P (ret a).
Proof. intros m Hm. exact Hm. Qed.

Lemma keeps_lift {A} (r : result A) : preserves P (lift r).
Proof. intros m Hm. exact Hm. Qed.

Lemma keeps_bind {A B} (c : M H A) (k : A → M H B) :
  preserves P c → (∀ a, preserves P (k a)) → preserves P (bind c k).
Proof.
  intros Hc Hk m Hm. unfold bind. specialize (Hc m Hm).
  destruct (c m) as [[a|e] m']; [apply Hk|]; exact Hc.
Qed.

Lemma keeps_get_self_bind {B} (k : H → M H B) :
  (∀ m, P m → P (snd (k (self m) m))) → preserves P (bind get_self k).
Proof. intros Hk m Hm. unfold bind, get_self. by apply Hk. Qed.

Lemma keeps_try_except {A} (body handler : M H A) catches :
  preserves P body → preserves P handler →
  preserves P (try_except body catches handler).
Proof.
  intros Hb Hh m Hm. unfold try_except. specialize (Hb m Hm).
  destruct (body m) as [[a|e] m']; [exact Hb|].
  destruct (catches e); [apply Hh|]; exact Hb.
Qed.

Lemma keeps_for_each {A} (l : list A) (body : A → M H unit) :
  (∀ x, preserves P (body x)) → preserves P (for_each l body).
Proof.
  intros Hbody. induction l as [|x l IH]; cbn [for_each].
  - apply keeps_ret.
  - apply keeps_bind; [apply Hbody | intros _; exact IH].
Qed.

Lemma keeps_if {A} (b : bool) (c1 c2 : M H A) :
  preserves P c1 → preserves P c2 → preserves P (if b then c1 else c2).
Proof. by destruct b. Qed.
End Keeps.

Lemma passive_step_requests_ok w ev tok st :
  In st (passive_steps w) →
  preserves (passive_requests_ok ev tok) (step_method st).
Proof.
  intros Hst m (Hev & Htok & Hsent).
  rewrite (passive_step_effect w st m Hst). unfold probe_effect.
  assert (Hreq : method (step_request st (self m)) = GET
                 ∧ probe_request ev tok (step_request st (self m))).
  { rewrite <- Hev, <- Htok.
    destruct Hst as [<- | [<- | [<- | []]]];
      (split; [reflexivity|]); (split; [eexists; reflexivity|]);
      split; reflexivity. }
  destruct (send w _) as [res|e]; cbn [snd]; unfold passive_requests_ok;
    cbn [self sent]; (split; [|split]);
    try (apply Forall_app; split; [exact Hsent | by constructor]);
    try assumption.
  all: destruct Hst as [<- | [<- | [<- | []]]]; assumption.
Qed.

Lemma passive_publish_requests_ok ev tok v :
  preserves (passive_requests_ok ev tok) (publish_event v).
Proof. intros m Hm. exact Hm. Qed.

Lemma keeps_get_self {H} (P : mem H → Prop) : preserves P get_self.
Proof. intros m Hm. exact Hm. Qed.

Lemma passive_run_requests_ok w ev tok :
  read_file w token_path = Ok tok →
  passive_requests_ok ev tok (snd (Passive.run w ev)).
Proof.
  intros Htok. unfold Passive.run, Passive.execute.
  unfold bind at 1. rewrite passive_token_read, Htok. cbv beta iota.
  match goal with |- passive_requests_ok _ _ (snd (?c ?m1)) =>
    assert (Htail : preserves (passive_requests_ok ev tok) c) end.
  { repeat first
      [ apply keeps_bind; [|intros ?]
      | apply keeps_if
      | apply keeps_ret
      | apply keeps_get_self
      | apply passive_publish_requests_ok
      | apply (passive_step_requests_ok w ev tok (api_step w));
        left; reflexivity
      | apply (passive_step_requests_ok w ev tok (all_pods_step w));
        right; left; reflexivity
      | apply (passive_step_requests_ok w ev tok (default_pods_step w));
        right; right; left; reflexivity ]. }
  apply Htail. split; [reflexivity|]. split; [reflexivity|]. constructor.
Qed.

(** The loop over the items keeps every field but the dict, whatever the
    items are. *)
Lemma record_pod_requests_ok ev tok item :
  preserves (active_requests_ok ev tok) (Active.record_pod item).
Proof.
  unfold Active.record_pod. apply keeps_bind; [apply keeps_lift|].
  intros entry m Hm. exact Hm.
Qed.

Lemma active_request_ok ev tok meth path s :
  Active.event s = ev → Active.service_account_token_evidence s = tok →
  probe_request ev tok (Active.api_request meth path None s).
Proof.
  intros <- <-. split; [eexists; reflexivity|]. split; reflexivity.
Qed.

Lemma active_call_requests_ok w ev tok path s :
  Active.event s = ev → Active.service_account_token_evidence s = tok →
  preserves (active_requests_ok ev tok)
    (requests_call w (Active.api_request GET path None s)).
Proof.
  intros Hev Htok m (Hev' & Htok' & Hsent). unfold requests_call.
  split; [exact Hev'|]. split; [exact Htok'|]. cbn [snd sent].
  apply Forall_app. split; [exact Hsent|]. constructor; [|constructor].
  split; [reflexivity|]. by apply active_request_ok.
Qed.

Lemma active_pod_list_body_requests_ok json_loads w ev tok path s :
  Active.event s = ev → Active.service_account_token_evidence s = tok →
  preserves (active_requests_ok ev tok)
    (let* res := requests_call w (Active.api_request GET path None s) in
     let* parsed_response_content := lift (json_loads (content res)) in
     let* items := lift (getitem parsed_response_content "items") in
     let* items := lift (iter items) in
     let* _ := for_each items Active.record_pod in
     ret (verdict res)).
Proof.
  intros Hev Htok.
  apply keeps_bind; [by apply active_call_requests_ok | intros res].
  apply keeps_bind; [apply keeps_lift | intros doc].
  apply keeps_bind; [apply keeps_lift | intros its].
  apply keeps_bind; [apply keeps_lift | intros items].
  apply keeps_bind; [|intros _; apply keeps_ret].
  apply keeps_for_each. intros item. apply record_pod_requests_ok.
Qed.

Lemma active_pod_list_requests_ok json_loads w ev tok req probe :
  In (req, probe) (active_pod_lists json_loads w) →
  preserves (active_requests_ok ev tok) probe.
Proof.
  intros [[= <- <-] | [[= <- <-] | []]];
    unfold Active.get_pods_list_under_all_namespace,
      Active.get_pods_list_under_default_namespace.
  all: apply keeps_try_except; [|apply keeps_ret].
  all: apply keeps_get_self_bind; intros m Hm.
  all: destruct Hm as (Hev & Htok & Hsent).
  all: apply (active_pod_list_body_requests_ok json_loads w ev tok _ (self m)
                Hev Htok m).
  all: by repeat split.
Qed.

Lemma active_run_requests_ok json_loads w ev tok :
  read_file w token_path = Ok tok →
  active_requests_ok ev tok (snd (Active.run json_loads w ev)).
Proof.
  intros Htok. unfold Active.run, Active.execute.
  unfold bind at 1. rewrite active_token_read, Htok. cbv beta iota.
  match goal with |- active_requests_ok _ _ (snd (?c ?m1)) =>
    assert (Htail : preserves (active_requests_ok ev tok) c) end.
  { repeat first
      [ apply keeps_bind; [|intros ?]
      | apply keeps_ret
      | apply (active_pod_list_requests_ok json_loads w ev tok
                 Active.all_pods_request); left; reflexivity
      | apply (active_pod_list_requests_ok json_loads w ev tok
                 Active.default_pods_request); right; left; reflexivity ]. }
  apply Htail. split; [reflexivity|]. split; [reflexivity|]. constructor.
Qed.

(** X6: every request of a run of either hunter is a GET to a path of
    https://host:port of the event, carries the text of the token file,
    as it was read, as bearer, and has verify False; this holds for every
    world, also when the run ends in an exception. *)
Theorem run_requests_carry_token (json_loads : bytes → result json)
    (w : world) (ev : OpenPortEvent) (tok : string) :
  read_file w token_path = Ok tok →
  Forall (λ req, method req = GET ∧ probe_request ev tok req)
    (sent (snd (Passive.run w ev)) ++ sent (snd (Active.run json_loads w ev))).
Proof.
  intros Htok. apply Forall_app. split.
  - apply (passive_run_requests_ok w ev tok Htok).
  - apply (active_run_requests_ok json_loads w ev tok Htok).
Qed.

Lemma run_requests_carry_token_witness :
  Forall (λ req, method req = GET ∧ probe_request example_event "tok" req)
    (sent (snd (Passive.run mixed_world example_event))
     ++ sent (snd (Active.run loads_examples mixed_world example_event))).
Proof.
  apply (run_requests_carry_token loads_examples mixed_world example_event
           "tok").
  reflexivity.
Defined.


(** ** More on the active hunter *)

Lemma active_frame_refl m : active_frame m m.
Proof. by repeat split. Qed.

Lemma record_pod_frame m0 item :
  preserves (λ m, active_frame m0 m ∧ sent m = sent m0)
    (Active.record_pod item).
Proof.
  unfold Active.record_pod. apply keeps_bind; [apply keeps_lift|].
  intros [k v] m ((Hf & Hp & Hd) & Hs). unfold set_self. cbn [snd].
  split; [|exact Hs]. split; [exact Hf|]. split; [exact Hp|].
  intros k' Hk'. cbn [self Active.set_pod_name
                       Active.namespaces_and_their_pod_names fst snd].
  apply lookup_insert_is_Some'. right. by apply Hd.
Qed.

Lemma for_each_record_pod_frame items m :
  active_frame m (snd (for_each items Active.record_pod m))
  ∧ sent (snd (for_each items Active.record_pod m)) = sent m.
Proof.
  apply (keeps_for_each (λ m', active_frame m m' ∧ sent m' = sent m)).
  - intros item. apply record_pod_frame.
  - split; [apply active_frame_refl | reflexivity].
Qed.

Lemma active_frame_sent m0 m snt :
  active_frame (Mem (self m0) (published m0) snt) m → active_frame m0 m.
Proof. intros H. exact H. Qed.

Lemma active_request_of_fields meth path payload s1 s2 :
  active_fields s1 = active_fields s2 →
  Active.api_request meth path payload s1
  = Active.api_request meth path payload s2.
Proof.
  unfold active_fields, Active.api_request. intros [= Hev Htok _ _ _ _ _].
  by rewrite Hev, Htok.
Qed.

(** A pod-list probe sends one request and changes the dict alone. *)
Lemma pod_list_probe_frame (json_loads : bytes → result json) (w : world)
    (req : Active.hunter → request) (probe : M Active.hunter bool)
    (m : mem Active.hunter) :
  In (req, probe) (active_pod_lists json_loads w) →
  active_frame m (snd (probe m))
  ∧ sent (snd (probe m)) = (sent m ++ [req (self m)])%list.
Proof.
  intros Hin. rewrite (active_pod_list_unfold _ _ _ _ m Hin).
  unfold pod_list_effect, handled.
  pose proof (active_frame_refl m) as Hm.
  destruct (send w _) as [res|e]; [|by split].
  destruct (json_loads _) as [doc|e]; [|by split].
  destruct (getitem doc _) as [its|e]; [|by split].
  destruct (iter its) as [items|e]; [|by split].
  destruct (for_each_record_pod_frame items
              (Mem (self m) (published m) (sent m ++ [req (self m)])))
    as [Hf Hs].
  destruct (for_each items _ _) as [[[]|e] m2]; by split.
Qed.

(** X7: a pod-list probe of the active hunter sends exactly one request and
    touches nothing but the dict of pod names: the event, the token and the
    evidence fields are as before, nothing is published, and no namespace
    the dict had is lost, whatever the answer and also when the probe
    raises; so every request the hunter makes afterwards is the one it
    would have made before. *)
Theorem active_pod_list_frame (json_loads : bytes → result json) (w : world)
    (req : Active.hunter → request) (probe : M Active.hunter bool)
    (m : mem Active.hunter) :
  In (req, probe) (active_pod_lists json_loads w) →
  active_frame m (snd (probe m))
  ∧ sent (snd (probe m)) = (sent m ++ [req (self m)])%list
  ∧ ∀ meth path payload,
      Active.api_request meth path payload (self (snd (probe m)))
      = Active.api_request meth path payload (self m).
Proof.
  intros Hin.
  destruct (pod_list_probe_frame json_loads w req probe m Hin) as [Hf Hs].
  split; [exact Hf|]. split; [exact Hs|].
  intros meth path payload. apply active_request_of_fields.
  by destruct Hf as [Hfields _].
Qed.

Lemma active_pod_list_frame_witness :
  let m := Mem (active_with_token example_event "tok") [] [] in
  let m' := snd (Active.get_pods_list_under_all_namespace loads_examples
                   forbidding_world m) in
  active_frame m m'
  ∧ sent m' = (sent m ++ [Active.all_pods_request (self m)])%list
  ∧ ∀ meth path payload,
      Active.api_request meth path payload (self m')
      = Active.api_request meth path payload (self m).
Proof.
  apply (active_pod_list_frame loads_examples forbidding_world
           Active.all_pods_request _
           (Mem (active_with_token example_event "tok") [] [])).
  left. reflexivity.
Defined.


Lemma getitem_exn v k e :
  getitem v k = Raise e → is_ConnectionError e = false.
Proof.
  destruct v; cbn [getitem]; try (intros [= <-]; reflexivity).
  destruct (dict_get _ _); intros [= <-]. reflexivity.
Qed.

Lemma pod_entry_exn item e :
  pod_entry item = Raise e → is_ConnectionError e = false.
Proof.
  unfold pod_entry.
  destruct (getitem item "metadata") as [md|e1] eqn:E1;
    [|intros [= <-]; by apply (getitem_exn _ _ _ E1)].
  destruct (getitem md "name") as [nm|e2] eqn:E2;
    [|intros [= <-]; by apply (getitem_exn _ _ _ E2)].
  destruct (getitem md "namespace") as [ns|e3] eqn:E3;
    [|intros [= <-]; by apply (getitem_exn _ _ _ E3)].
  destruct ns; cbn [to_key]; intros [= <-]; reflexivity.
Qed.

Lemma for_each_record_pod_bad good bad rest e m :
  Forall (λ item, raises (pod_entry item) = false) good →
  pod_entry bad = Raise e →
  let m' := snd (for_each good Active.record_pod m) in
  for_each (good ++ bad :: rest)%list Active.record_pod m = (Raise e, m').
Proof.
  intros Hgood Hbad. cbv zeta. revert m.
  induction Hgood as [|item good Hitem _ IH]; intros m.
  - cbn [app for_each]. unfold bind at 1, Active.record_pod.
    unfold bind, lift. by rewrite Hbad.
  - destruct (pod_entry item) as [[k v]|e'] eqn:E; [|discriminate Hitem].
    rewrite <- app_comm_cons.
    rewrite !(for_each_record_pod_cons _ _ _ _ _ E). apply IH.
Qed.

(** X8: a pod-list probe of the active hunter that meets an item without
    the shape of a pod raises the exception of that item (a KeyError or a
    TypeError); the items before it are in the dict already and stay there,
    the items after it are not looked at. *)
Theorem pod_list_stops_at_bad_item (json_loads : bytes → result json)
    (w : world) (req : Active.hunter → request)
    (probe : M Active.hunter bool) (m : mem Active.hunter)
    (res : response) (doc items : json) (good rest : list json)
    (bad : json) (e : exn) :
  In (req, probe) (active_pod_lists json_loads w) →
  send w (req (self m)) = Ok res →
  json_loads (content res) = Ok doc →
  getitem doc "items" = Ok items →
  iter items = Ok (good ++ bad :: rest)%list →
  Forall (λ item, raises (pod_entry item) = false) good →
  pod_entry bad = Raise e →
  fst (probe m) = Raise e
  ∧ Active.namespaces_and_their_pod_names (self (snd (probe m)))
    = insert_entries (Active.namespaces_and_their_pod_names (self m))
        (entries_of good).
Proof.
  intros Hin Hsend Hdoc Hitems Hiter Hgood Hbad.
  rewrite (active_pod_list_unfold _ _ _ _ m Hin). unfold pod_list_effect.
  rewrite Hsend, Hdoc, Hitems, Hiter.
  rewrite (for_each_record_pod_bad good bad rest e _ Hgood Hbad).
  unfold handled. rewrite (pod_entry_exn _ _ Hbad). cbn [fst snd].
  split; [reflexivity|].
  apply (for_each_record_pod good
           (Mem (self m) (published m) (sent m ++ [req (self m)])) Hgood).
Qed.

Lemma pod_list_stops_at_bad_item_witness :
  let m := Mem (active_with_token example_event "tok") [] [] in
  let r := Active.get_pods_list_under_all_namespace loads_broken
             broken_world m in
  fst r = Raise (KeyError "namespace")
  ∧ Active.namespaces_and_their_pod_names (self (snd r))
    = insert_entries ∅ (entries_of [pod_doc "kube-system" "dns-1"]).
Proof.
  apply (pod_list_stops_at_bad_item loads_broken broken_world
           Active.all_pods_request _
           (Mem (active_with_token example_event "tok") [] [])
           {| status_code := 200; content := list_byte_of_string broken_text |}
           broken_doc
           (JList [pod_doc "kube-system" "dns-1"; orphan_doc;
                   pod_doc "default" "web"])
           [pod_doc "kube-system" "dns-1"] [pod_doc "default" "web"]
           orphan_doc).
  - left. reflexivity.
  - reflexivity.
  - vm_compute. reflexivity.
  - reflexivity.
  - reflexivity.
  - repeat constructor.
  - reflexivity.
Defined.


(** X9: when the body of the answer decodes to a list of pods, a pod-list
    probe of the active hunter records every item in the dict before it
    looks at the status: it returns True exactly for status 200, the dict
    holds the entries of the items in order in either case, and a
    namespace that no item names keeps the entry it had. *)
Theorem pod_list_recorded_whatever_status (json_loads : bytes → result json)
    (w : world) (req : Active.hunter → request)
    (probe : M Active.hunter bool) (m : mem Active.hunter)
    (res : response) (doc its : json) (items : list json) :
  In (req, probe) (active_pod_lists json_loads w) →
  send w (req (self m)) = Ok res →
  json_loads (content res) = Ok doc →
  getitem doc "items" = Ok its →
  iter its = Ok items →
  Forall (λ item, raises (pod_entry item) = false) items →
  fst (probe m) = Ok (status_code res =? 200)%Z
  ∧ Active.namespaces_and_their_pod_names (self (snd (probe m)))
    = insert_entries (Active.namespaces_and_their_pod_names (self m))
        (entries_of items)
  ∧ ∀ k, Forall (λ entry, entry.1 ≠ k) (entries_of items) →
         Active.namespaces_and_their_pod_names (self (snd (probe m))) !! k
         = Active.namespaces_and_their_pod_names (self m) !! k.
Proof.
  intros Hin Hsend Hdoc Hits Hiter Hitems.
  destruct (active_pod_list_decoded json_loads w req probe m res doc its
              items Hin Hsend Hdoc Hits Hiter Hitems) as [Hr Hmap].
  rewrite Hr, Hmap, verdict_status. split; [reflexivity|].
  split; [reflexivity|]. intros k Hk. by apply insert_entries_other.
Qed.

Lemma pod_list_recorded_whatever_status_witness :
  let m := Mem (active_with_token example_event "tok") [] [] in
  let r := Active.get_pods_list_under_default_namespace loads_examples
             proxied_world m in
  let items := [pod_doc "kube-system" "dns-1"; pod_doc "kube-system" "dns-2";
                pod_doc "default" "web"] in
  fst r = Ok false
  ∧ Active.namespaces_and_their_pod_names (self (snd r))
    = insert_entries ∅ (entries_of items)
  ∧ ∀ k, Forall (λ entry, entry.1 ≠ k) (entries_of items) →
         Active.namespaces_and_their_pod_names (self (snd r)) !! k
         = (∅ : gmap pykey json) !! k.
Proof.
  apply (pod_list_recorded_whatever_status loads_examples proxied_world
           Active.default_pods_request _
           (Mem (active_with_token example_event "tok") [] [])
           {| status_code := 203; content := list_byte_of_string pods_text |}
           pods_doc
           (JList [pod_doc "kube-system" "dns-1"; pod_doc "kube-system" "dns-2";
                   pod_doc "default" "web"])).
  - right. left. reflexivity.
  - reflexivity.
  - vm_compute. reflexivity.
  - reflexivity.
  - reflexivity.
  - repeat constructor.
Defined.


Lemma decoding_probe_unfold json_loads w req probe m :
  In (req, probe) (decoding_probes json_loads w) →
  ∀ res e, send w (req (self m)) = Ok res →
           json_loads (content res) = Raise e →
           probe m = handled e (Mem (self m) (published m)
                                  (sent m ++ [req (self m)])).
Proof.
  intros Hin res e Hsend Hdoc. apply in_app_or in Hin.
  destruct Hin as [Hin | [[= <- <-] | []]].
  - rewrite (active_pod_list_unfold _ _ _ _ m Hin). unfold pod_list_effect.
    by rewrite Hsend, Hdoc.
  - unfold Active.get_all_namespaces, handled. unfold_monad.
    rewrite Hsend, Hdoc. by destruct (is_ConnectionError e).
Qed.

(** X10: the methods of the active hunter that decode the body (the two
    pod lists and get_all_namespaces) raise the exception of json.loads when
    the body cannot be decoded, whatever the status of the answer; the
    request is sent and the hunter object is as before. *)
Theorem undecodable_body_raises (json_loads : bytes → result json)
    (w : world) (req : Active.hunter → request)
    (probe : M Active.hunter bool) (m : mem Active.hunter)
    (res : response) (e : exn) :
  In (req, probe) (decoding_probes json_loads w) →
  send w (req (self m)) = Ok res →
  json_loads (content res) = Raise e →
  is_ConnectionError e = false →
  probe m
  = (Raise e, Mem (self m) (published m) (sent m ++ [req (self m)])).
Proof.
  intros Hin Hsend Hdoc He.
  rewrite (decoding_probe_unfold _ _ _ _ m Hin res e Hsend Hdoc).
  unfold handled. by rewrite He.
Qed.

Lemma undecodable_body_raises_witness :
  let m := Mem (active_with_token example_event "tok") [] [] in
  let req := Active.api_request GET "/api/v1/namespaces" None (self m) in
  Active.get_all_namespaces loads_examples unauthorized_world m
  = (Raise ValueError, Mem (self m) (published m) (sent m ++ [req])).
Proof.
  apply (undecodable_body_raises loads_examples unauthorized_world
           (Active.api_request GET "/api/v1/namespaces" None) _
           (Mem (active_with_token example_event "tok") [] [])
           {| status_code := 401;
              content := list_byte_of_string "Unauthorized" |}).
  - apply in_or_app. right. left. reflexivity.
  - reflexivity.
  - vm_compute. reflexivity.
  - reflexivity.
Defined.


(** X11: get_all_namespaces sends one GET to /api/v1/namespaces and keeps
    nothing of the answer: the hunter object, [all_namespaces_evidence]
    included, is as before for every answer; when the body decodes it
    returns True exactly for status 200, and on a connection error
    False. *)
Theorem get_all_namespaces_keeps_nothing (json_loads : bytes → result json)
    (w : world) (m : mem Active.hunter) :
  let req := Active.api_request GET "/api/v1/namespaces" None (self m) in
  let r := Active.get_all_namespaces json_loads w m in
  snd r = Mem (self m) (published m) (sent m ++ [req])
  ∧ (∀ res doc, send w req = Ok res → json_loads (content res) = Ok doc →
                fst r = Ok (status_code res =? 200)%Z)
  ∧ (send w req = Raise ConnectionError → fst r = Ok false).
Proof.
  cbv zeta. unfold Active.get_all_namespaces. unfold_monad.
  destruct (send w _) as [res|e] eqn:Hsend.
  - destruct (json_loads _) as [doc|e] eqn:Hdoc.
    + split; [reflexivity|]. split; [|intros [=]].
      intros res' doc' [= <-] _. cbn [fst]. by rewrite verdict_status.
    + split; [by destruct (is_ConnectionError e)|]. split; [|intros [=]].
      intros res' doc' [= <-] Hdoc'. rewrite Hdoc in Hdoc'. discriminate.
  - split; [by destruct (is_ConnectionError e)|]. split; [intros ? ? [=]|].
    intros [= ->]. reflexivity.
Qed.

(** X12: each of the three role probes sends one GET to its own path; on a
    response it assigns the body to [namespace_roles_evidence] whatever the
    status, and returns the body when the status is 200 (an empty body
    too) and False otherwise; on a connection error it returns False and
    leaves the hunter object as it was. *)
Theorem role_probe_effect (w : world) (namespace : string)
    (req : Active.hunter → request) (probe : M Active.hunter pyval)
    (m : mem Active.hunter) :
  In (req, probe) (role_probes w namespace) →
  let m1 := Mem (self m) (published m) (sent m ++ [req (self m)]) in
  probe m
  = match send w (req (self m)) with
    | Ok res =>
        (Ok (if (status_code res =? 200)%Z then VBytes (content res)
             else VBool false),
         Mem (Active.set_namespace_roles_evidence (VBytes (content res))
                (self m))
           (published m) (sent m ++ [req (self m)]))
    | Raise e => (if is_ConnectionError e then Ok (VBool false) else Raise e, m1)
    end.
Proof.
  intros [[= <- <-] | [[= <- <-] | [[= <- <-] | []]]]; cbv zeta;
    unfold Active.get_roles_for_namespace, Active.get_cluster_roles,
      Active.get_all_roles, Active.content_or_False; unfold_monad;
    (destruct (send w _) as [res|e];
     [by rewrite verdict_status | by destruct (is_ConnectionError e)]).
Qed.

Lemma role_probe_effect_witness :
  let m := Mem (active_with_token example_event "tok") [] [] in
  let req := Active.api_request GET (Active.rbac ++ "/clusterroles") None
               (self m) in
  Active.get_cluster_roles rbac_world m
  = (Ok (VBytes (list_byte_of_string roles_text)),
     Mem (Active.set_namespace_roles_evidence
            (VBytes (list_byte_of_string roles_text)) (self m))
       [] [req]).
Proof.
  apply (role_probe_effect rbac_world "default"
           (Active.api_request GET (Active.rbac ++ "/clusterroles") None) _
           (Mem (active_with_token example_event "tok") [] [])).
  right. left. reflexivity.
Defined.


(** X13: delete_a_pod and patch_a_pod send one DELETE, one PATCH with empty
    data, to /api/v1/namespaces/<namespace>/pods/<name> of the API server,
    with the token as bearer and verify False; they return True exactly for
    status 200 and False on a connection error, and change nothing of the
    hunter object. *)
Theorem pod_mutation_effect (w : world) (pod_namespace pod_name : string)
    (m : mem Active.hunter) :
  let target := api_url (Active.event (self m))
                  ("/api/v1/namespaces/" ++ pod_namespace ++ "/pods/"
                   ++ pod_name) in
  let token := bearer (Active.service_account_token_evidence (self m)) in
  let delete := {| method := DELETE; url := target; headers := token;
                   verify := false; data := None |} in
  let patch := {| method := PATCH; url := target; headers := token;
                  verify := false; data := Some [] |} in
  let verdict_of (req : request) : result bool :=
    match send w req with
    | Ok res => Ok (status_code res =? 200)%Z
    | Raise e => if is_ConnectionError e then Ok false else Raise e
    end in
  Active.delete_a_pod w pod_namespace pod_name m
  = (verdict_of delete, Mem (self m) (published m) (sent m ++ [delete]))
  ∧ Active.patch_a_pod w pod_namespace pod_name m
    = (verdict_of patch, Mem (self m) (published m) (sent m ++ [patch])).
Proof.
  cbv zeta. unfold Active.delete_a_pod, Active.patch_a_pod. unfold_monad.
  unfold Active.api_request, Active.pod_path.
  split;
    (destruct (send w _) as [res|e];
     [by rewrite verdict_status | by destruct (is_ConnectionError e)]).
Qed.

Lemma string_app_assoc (a b c : string) : (a ++ b) ++ c = a ++ (b ++ c).
Proof.
  induction a as [|x a IH]; [reflexivity|].
  change (String x ((a ++ b) ++ c) = String x (a ++ (b ++ c))).
  by rewrite IH.
Qed.

(** X14: the namespace and the name go into the path as they are, so that
    two different pairs can name one request: the calls for the pod
    b/pods/c of the namespace a and for the pod c of the namespace
    a/pods/b are the same. *)
Theorem pod_path_not_escaped (w : world) (a b c : string)
    (m : mem Active.hunter) :
  Active.delete_a_pod w a (b ++ "/pods/" ++ c) m
  = Active.delete_a_pod w (a ++ "/pods/" ++ b) c m
  ∧ Active.patch_a_pod w a (b ++ "/pods/" ++ c) m
    = Active.patch_a_pod w (a ++ "/pods/" ++ b) c m.
Proof.
  assert (Hpath : Active.pod_path a (b ++ "/pods/" ++ c)
                  = Active.pod_path (a ++ "/pods/" ++ b) c).
  { unfold Active.pod_path. rewrite !string_app_assoc. reflexivity. }
  unfold Active.delete_a_pod, Active.patch_a_pod. by rewrite Hpath.
Qed.

Lemma active_run_unfold json_loads w ev tok :
  read_file w token_path = Ok tok →
  let first := Active.get_pods_list_under_all_namespace json_loads w
                 (Mem (active_with_token ev tok) [] []) in
  let second := Active.get_pods_list_under_default_namespace json_loads w
                  (snd first) in
  Active.run json_loads w ev
  = match fst first with
    | Ok _ => (match fst second with Ok _ => Ok tt | Raise e => Raise e end,
               snd second)
    | Raise e => (Raise e, snd first)
    end.
Proof.
  intros Htok. cbv zeta. unfold Active.run, Active.execute.
  unfold bind at 1. rewrite active_token_read, Htok. cbv beta iota.
  unfold bind, ret. cbn [self published sent Active.start].
  fold (active_with_token ev tok).
  destruct (Active.get_pods_list_under_all_namespace _ _ _) as [[ok1|e1] m2];
    [|reflexivity].
  cbn [fst snd].
  destruct (Active.get_pods_list_under_default_namespace _ _ _)
    as [[ok2|e2] m3]; reflexivity.
Qed.

(** X15: a run of the active hunter that read the token asks for the pod
    list of all namespaces first; when that probe raises, the exception
    leaves the run and nothing else is sent; when it returns, True or
    False, the pod list of the default namespace is asked for, and the run
    raises only what that probe raises. *)
Theorem active_run_requests (json_loads : bytes → result json) (w : world)
    (ev : OpenPortEvent) (tok : string) :
  read_file w token_path = Ok tok →
  let s := active_with_token ev tok in
  let first := Active.get_pods_list_under_all_namespace json_loads w
                 (Mem s [] []) in
  let second := Active.get_pods_list_under_default_namespace json_loads w
                  (snd first) in
  let r := Active.run json_loads w ev in
  match fst first with
  | Raise e => fst r = Raise e ∧ sent (snd r) = [Active.all_pods_request s]
  | Ok _ =>
      fst r = match fst second with Ok _ => Ok tt | Raise e => Raise e end
      ∧ sent (snd r)
        = [Active.all_pods_request s; Active.default_pods_request s]
  end.
Proof.
  intros Htok. cbv zeta.
  rewrite (active_run_unfold json_loads w ev tok Htok).
  destruct (pod_list_probe_frame json_loads w Active.all_pods_request _
              (Mem (active_with_token ev tok) [] []) (or_introl eq_refl))
    as [(Hf1 & _) Hs1].
  destruct (pod_list_probe_frame json_loads w Active.default_pods_request _
              (snd (Active.get_pods_list_under_all_namespace json_loads w
                      (Mem (active_with_token ev tok) [] [])))
              (or_intror (or_introl eq_refl))) as [_ Hs2].
  cbn [self sent app] in Hs1, Hf1.
  rewrite Hs1 in Hs2. cbn [app] in Hs2.
  unfold Active.default_pods_request in *.
  rewrite (active_request_of_fields _ _ _ _ _ Hf1) in Hs2.
  destruct (fst (Active.get_pods_list_under_all_namespace _ _ _));
    cbn [fst snd]; split; try reflexivity; assumption.
Qed.

Lemma active_run_requests_witness :
  let r := Active.run loads_examples forbidding_world example_event in
  fst r = Raise (KeyError "items")
  ∧ sent (snd r)
    = [Active.all_pods_request (active_with_token example_event "tok")].
Proof.
  exact (active_run_requests loads_examples forbidding_world example_event
           "tok" eq_refl).
Defined.


(** X16: when both pod lists decode to lists of pods, a run of the active
    hunter ends without an exception and its dict holds the entries of the
    list of all namespaces followed by those of the list of the default
    namespace, a later entry of a namespace replacing an earlier one. *)
Theorem active_run_collects_both_lists (json_loads : bytes → result json)
    (w : world) (ev : OpenPortEvent) (tok : string)
    (res1 res2 : response) (doc1 doc2 its1 its2 : json)
    (items1 items2 : list json) :
  read_file w token_path = Ok tok →
  let s := active_with_token ev tok in
  send w (Active.all_pods_request s) = Ok res1 →
  json_loads (content res1) = Ok doc1 →
  getitem doc1 "items" = Ok its1 → iter its1 = Ok items1 →
  Forall (λ item, raises (pod_entry item) = false) items1 →
  send w (Active.default_pods_request s) = Ok res2 →
  json_loads (content res2) = Ok doc2 →
  getitem doc2 "items" = Ok its2 → iter its2 = Ok items2 →
  Forall (λ item, raises (pod_entry item) = false) items2 →
  fst (Active.run json_loads w ev) = Ok tt
  ∧ Active.namespaces_and_their_pod_names
      (self (snd (Active.run json_loads w ev)))
    = insert_entries ∅ (entries_of items1 ++ entries_of items2).
Proof.
  intros Htok s Hs1 Hd1 Hi1 Ht1 Hp1 Hs2 Hd2 Hi2 Ht2 Hp2.
  rewrite (active_run_unfold json_loads w ev tok Htok). fold s.
  set (m1 := Mem s [] []).
  destruct (active_pod_list_decoded json_loads w Active.all_pods_request _
              m1 res1 doc1 its1 items1 (or_introl eq_refl) Hs1 Hd1 Hi1 Ht1
              Hp1) as [Hr1 Hm1].
  destruct (pod_list_probe_frame json_loads w Active.all_pods_request _
              m1 (or_introl eq_refl)) as [(Hf1 & _) _].
  set (m2 := snd (Active.get_pods_list_under_all_namespace json_loads w m1))
    in *.
  assert (Hs2' : send w (Active.default_pods_request (self m2)) = Ok res2).
  { unfold Active.default_pods_request.
    rewrite (active_request_of_fields _ _ _ _ _ Hf1). exact Hs2. }
  destruct (active_pod_list_decoded json_loads w Active.default_pods_request
              _ m2 res2 doc2 its2 items2 (or_intror (or_introl eq_refl))
              Hs2' Hd2 Hi2 Ht2 Hp2) as [Hr2 Hm2].
  rewrite Hr1, Hr2. cbn [fst snd]. split; [reflexivity|].
  rewrite Hm2, Hm1. cbn [self m1]. symmetry. apply insert_entries_app.
Qed.

Lemma active_run_collects_both_lists_witness :
  let items := [pod_doc "kube-system" "dns-1"; pod_doc "kube-system" "dns-2";
                pod_doc "default" "web"] in
  fst (Active.run loads_examples open_world example_event) = Ok tt
  ∧ Active.namespaces_and_their_pod_names
      (self (snd (Active.run loads_examples open_world example_event)))
    = insert_entries ∅ (entries_of items ++ entries_of items).
Proof.
  apply (active_run_collects_both_lists loads_examples open_world
           example_event "tok"
           {| status_code := 200; content := list_byte_of_string pods_text |}
           {| status_code := 200; content := list_byte_of_string pods_text |}
           pods_doc pods_doc
           (JList [pod_doc "kube-system" "dns-1"; pod_doc "kube-system" "dns-2";
                   pod_doc "default" "web"])
           (JList [pod_doc "kube-system" "dns-1"; pod_doc "kube-system" "dns-2";
                   pod_doc "default" "web"])).
  - reflexivity.
  - reflexivity.
  - vm_compute. reflexivity.
  - reflexivity.
  - reflexivity.
  - repeat constructor.
  - reflexivity.
  - vm_compute. reflexivity.
  - reflexivity.
  - reflexivity.
  - repeat constructor.
Defined.


(** ** What a run depends on *)

Lemma bind_ext {H A B} (c1 c2 : M H A) (k1 k2 : A → M H B) m :
  c1 m = c2 m → (∀ a m', k1 a m' = k2 a m') → bind c1 k1 m = bind c2 k2 m.
Proof.
  intros Hc Hk. unfold bind. rewrite Hc.
  destruct (c2 m) as [[a|e] m']; [apply Hk | reflexivity].
Qed.

Lemma passive_step_ext w1 w2 st1 st2 m :
  (∀ req, send w1 req = send w2 req) →
  In (st1, st2) (combine (passive_steps w1) (passive_steps w2)) →
  step_method st1 m = step_method st2 m.
Proof.
  intros Hsend Hin.
  assert (H1 : In st1 (passive_steps w1)) by (eapply in_combine_l; eauto).
  assert (H2 : In st2 (passive_steps w2)) by (eapply in_combine_r; eauto).
  rewrite (passive_step_effect w1 st1 m H1), (passive_step_effect w2 st2 m H2).
  unfold probe_effect.
  destruct Hin as [[= <- <-] | [[= <- <-] | [[= <- <-] | []]]];
    cbn [step_request step_store api_step all_pods_step default_pods_step];
    by rewrite Hsend.
Qed.

Lemma active_pod_list_ext json_loads w1 w2 req p1 p2 m :
  (∀ req, send w1 req = send w2 req) →
  In (req, p1) (active_pod_lists json_loads w1) →
  In (req, p2) (active_pod_lists json_loads w2) →
  p1 m = p2 m.
Proof.
  intros Hsend H1 H2.
  rewrite (active_pod_list_unfold _ _ _ _ m H1),
    (active_pod_list_unfold _ _ _ _ m H2).
  unfold pod_list_effect. by rewrite Hsend.
Qed.

(** X17: a run of either hunter depends on the file system through the
    token file alone: two worlds that agree on that file and on the answers
    to the requests give the same run, whatever their other files hold. *)
Theorem run_reads_one_file (json_loads : bytes → result json)
    (w1 w2 : world) (ev : OpenPortEvent) :
  read_file w1 token_path = read_file w2 token_path →
  (∀ req, send w1 req = send w2 req) →
  Passive.run w1 ev = Passive.run w2 ev
  ∧ Active.run json_loads w1 ev = Active.run json_loads w2 ev.
Proof.
  intros Hfile Hsend. split.
  - unfold Passive.run, Passive.execute.
    apply bind_ext; [by rewrite !passive_token_read, Hfile|].
    intros [|] m; [|reflexivity].
    apply bind_ext; [reflexivity | intros s m1].
    apply bind_ext; [reflexivity | intros _ m2].
    apply bind_ext.
    { apply (passive_step_ext w1 w2 (api_step w1) (api_step w2) _ Hsend).
      left. reflexivity. }
    intros ok1 m3. apply bind_ext; [reflexivity | intros _ m4].
    apply bind_ext.
    { apply (passive_step_ext w1 w2 (all_pods_step w1) (all_pods_step w2) _
               Hsend). right. left. reflexivity. }
    intros ok2 m5. apply bind_ext; [reflexivity | intros _ m6].
    apply bind_ext; [|reflexivity].
    apply (passive_step_ext w1 w2 (default_pods_step w1)
             (default_pods_step w2) _ Hsend). right. right. left. reflexivity.
  - unfold Active.run, Active.execute.
    apply bind_ext; [by rewrite !active_token_read, Hfile|].
    intros [|] m; [|reflexivity].
    apply bind_ext.
    { apply (active_pod_list_ext json_loads w1 w2 Active.all_pods_request
               _ _ _ Hsend); left; reflexivity. }
    intros _ m1. apply bind_ext; [|reflexivity].
    apply (active_pod_list_ext json_loads w1 w2 Active.default_pods_request
             _ _ _ Hsend); right; left; reflexivity.
Qed.

Lemma run_reads_one_file_witness :
  Passive.run mixed_world example_event = Passive.run roomy_world example_event
  ∧ Active.run loads_examples mixed_world example_event
    = Active.run loads_examples roomy_world example_event.
Proof.
  apply (run_reads_one_file loads_examples mixed_world roomy_world
           example_event).
  - reflexivity.
  - intros req. reflexivity.
Defined.
